(** * 3Speak upload service: status polling, storage administration, upload-session expiry

    A shallow embedding of the parts of the repository that the specification's
    testable properties are about:

    - the client-side status reconciler of the frontend integration guide
      ([ThreeSpeakUploader.getStatusLabel], [ThreeSpeakUploader.pollUntilPublished],
      and the stand-alone [StatusGuide.getStatusLabel] / [StatusGuide.pollVideoStatus]);
    - the storage service ([Storage]: [getStorageStats], [listPinnedFiles],
      [unpinFiles], [runGarbageCollection]) and its routes ([Routes]);
    - the dashboard client's age gate ([StorageManager]);
    - the index set-up of the [temp_uploads] collection ([TempUploads]).

    JavaScript values are modelled as the code uses them: statuses and cids are
    strings, JSON numbers that may be fractional are rationals, the result of
    [parseInt] is an integer or [NaN], [Date] values are milliseconds since the
    epoch, and an absent ([null] / [undefined]) value is [None]. *)

From Stdlib Require Import String Ascii ZArith QArith Qround List Bool Lia Permutation DecimalString.
Import ListNotations.

Local Open Scope string_scope.
Local Open Scope Z_scope.

(** ** JavaScript primitives used by the sources *)

Module Js.

(** [String(n)] / template interpolation of an integer. *)
Definition string_of_Z (z : Z) : string := NilZero.string_of_int (Z.to_int z).

(** [Math.round]: the nearest integer, ties towards +infinity. *)
Definition Math_round (q : Q) : Z := Qfloor (Qplus q (1 # 2)).

(** [x || 0] on an optional number: [undefined], [null] and [0] are falsy. *)
Definition or_zero (x : option Q) : Q :=
  match x with
  | Some q => if Qeq_bool q 0 then 0%Q else q
  | None => 0%Q
  end.

(** The value of [parseInt]: an integer, or [NaN] when no digits were read. *)
Inductive int : Type :=
| NaN
| Int (z : Z).

(** [a > b] where [b] is an integer literal; every comparison with [NaN] is false. *)
Definition gt (a : int) (b : Z) : bool :=
  match a with
  | NaN => false
  | Int z => b <? z
  end.

(** [x || 0] on an optional integer JSON number. *)
Definition or_zeroZ (x : option Z) : Z :=
  match x with
  | Some z => z
  | None => 0
  end.

(** [s.split(sep)] for a one-character separator: the fields between the
    separators, at least one. *)
Fixpoint split (sep : ascii) (s : string) : list string :=
  match s with
  | EmptyString => [EmptyString]
  | String c rest =>
      if Ascii.eqb c sep then EmptyString :: split sep rest
      else match split sep rest with
           | field :: fields => String c field :: fields
           | [] => [String c EmptyString]
           end
  end.

(** [s.includes(c)] for one character. *)
Fixpoint includes (c : ascii) (s : string) : bool :=
  match s with
  | EmptyString => false
  | String c' rest => Ascii.eqb c' c || includes c rest
  end.

(** [x || fallback] on an optional string: [undefined] and [''] are falsy. *)
Definition or_string (x : option string) (fallback : string) : string :=
  match x with
  | Some EmptyString | None => fallback
  | Some s => s
  end.

End Js.

(** ** The status objects returned by [GET /api/upload/video/:id/status] *)

Module Progress.
Record t : Type := mk { pct : option Q; download_pct : option Q }.
End Progress.

Module Job.
Record t : Type := mk { id : string; status : string; progress : option Progress.t }.
End Job.

Module Video.
Record t : Type := mk { status : string; owner : string; permlink : string }.
End Video.

(** [result.data], i.e. [{ video, job }]; [job] is [null] until the encoder
    has created one. *)
Module StatusData.
Record t : Type := mk { video : Video.t; job : option Job.t }.
End StatusData.

(** [job?.status === s] *)
Definition job_status_is (job : option Job.t) (s : string) : bool :=
  match job with
  | Some j => (Job.status j =? s)%string
  | None => false
  end.

(** [job?.progress?.pct || 0] *)
Definition job_pct (job : option Job.t) : Q :=
  Js.or_zero
    (match job with
     | Some j => match Job.progress j with
                 | Some p => Progress.pct p
                 | None => None
                 end
     | None => None
     end).

(** ** [class ThreeSpeakUploader] of the integration guide *)

Module ThreeSpeakUploader.

(** [getStatusLabel(video, job)] *)
Definition getStatusLabel (video : Video.t) (job : option Job.t) : string :=
  let vs := Video.status video in
  if (vs =? "published")%string || (vs =? "publish_manual")%string then
    "🎉 Published to Hive!"
  else if (vs =? "failed")%string || (vs =? "encoding_failed")%string
          || job_status_is job "failed" then
    "❌ Encoding Failed"
  else if (vs =? "uploaded")%string then
    "⏳ Waiting for encoding..."
  else
    let fallback :=
      if (vs =? "encoding_ipfs")%string || (vs =? "encoding_preparing")%string
         || (vs =? "encoding_progress")%string
      then "🔄 Processing..."
      else vs in
    match job with
    | Some j =>
        if (Job.status j =? "queued")%string then "⏳ Queued for encoding..."
        else if (Job.status j =? "running")%string then
          let pct := Js.Math_round (job_pct job) in
          "🔄 Encoding: " ++ Js.string_of_Z pct ++ "%"
        else if (Job.status j =? "complete")%string then
          "✅ Encoding complete! Publishing..."
        else fallback
    | None => fallback
    end.

(** The object handed to [onUpdate] on every tick. *)
Record Update : Type := mkUpdate {
  video : Video.t;
  job : option Job.t;
  progress : Q;
  statusLabel : string;
  isComplete : bool;
  isFailed : bool
}.

Definition is_published (v : Video.t) : bool :=
  (Video.status v =? "published")%string || (Video.status v =? "publish_manual")%string.

Definition is_failed (v : Video.t) (job : option Job.t) : bool :=
  (Video.status v =? "failed")%string || (Video.status v =? "encoding_failed")%string
  || job_status_is job "failed".

Definition mk_update (status : StatusData.t) : Update :=
  let video := StatusData.video status in
  let job := StatusData.job status in
  {| video := video;
     job := job;
     progress := job_pct job;
     statusLabel := getStatusLabel video job;
     isComplete := is_published video;
     isFailed := is_failed video job |}.

(** One firing of the [setInterval] callback of [pollUntilPublished], called
    with an [onUpdate] handler.  [getStatus] either yields the status data or
    throws ([None]).  The result is the update passed to [onUpdate] (if any)
    and whether [clearInterval] was called. *)
Definition pollUntilPublished_tick (getStatus : option StatusData.t) : option Update * bool :=
  match getStatus with
  | Some status =>
      let video := StatusData.video status in
      let job := StatusData.job status in
      (Some (mk_update status), is_published video || is_failed video job)
  | None => (None, true)
  end.


End ThreeSpeakUploader.

(** ** The stand-alone helpers of the guide's "status flow" section *)

Module StatusGuide.

(** [getStatusLabel(video, job)] *)
Definition getStatusLabel (video : Video.t) (job : option Job.t) : string :=
  let vs := Video.status video in
  if (vs =? "published")%string || (vs =? "publish_manual")%string then
    "🎉 Published to Hive!"
  else if (vs =? "failed")%string || (vs =? "encoding_failed")%string
          || job_status_is job "failed" then
    "❌ Encoding Failed"
  else if (vs =? "uploaded")%string then
    "⏳ Waiting for encoding to start..."
  else
    let fallback := "Processing (" ++ vs ++ ")..." in
    match job with
    | Some j =>
        if (Job.status j =? "queued")%string then "⏳ Queued for encoding..."
        else if (Job.status j =? "running")%string then
          let progress := job_pct job in
          "🔄 Encoding: " ++ Js.string_of_Z (Js.Math_round progress) ++ "%"
        else if (Job.status j =? "complete")%string then
          "✅ Encoding complete! Publishing to Hive..."
        else fallback
    | None => fallback
    end.

(** The object handed to [onUpdate]. *)
Record Update : Type := mkUpdate {
  label : string;
  video : Video.t;
  job : option Job.t;
  progress : Q;
  isComplete : bool;
  isFailed : bool
}.

Definition mk_update (data : StatusData.t) : Update :=
  let video := StatusData.video data in
  let job := StatusData.job data in
  {| label := getStatusLabel video job;
     video := video;
     job := job;
     progress := job_pct job;
     isComplete := ThreeSpeakUploader.is_published video;
     isFailed := ThreeSpeakUploader.is_failed video job |}.

(** What [pollVideoStatus] resolves to. *)
Inductive PollResult : Type :=
| Finished (success : bool) (video : Video.t) (job : option Job.t)
| TimedOut.

Definition maxAttempts : nat := 120.

(** The [while (attempts < maxAttempts)] loop.  [fetch n] is the outcome of
    the [n]-th status request ([None] when the request or the destructuring
    of its body throws); the result collects the [onUpdate] calls in order. *)
Fixpoint pollVideoStatus_loop (remaining attempts : nat)
         (fetch : nat -> option StatusData.t) : list Update * PollResult :=
  match remaining with
  | O => ([], TimedOut)
  | S remaining' =>
      let attempts := S attempts in
      match fetch attempts with
      | Some data =>
          let video := StatusData.video data in
          let job := StatusData.job data in
          let u := mk_update data in
          if ThreeSpeakUploader.is_published video then ([u], Finished true video job)
          else if ThreeSpeakUploader.is_failed video job then ([u], Finished false video job)
          else
            let '(us, r) := pollVideoStatus_loop remaining' attempts fetch in
            (u :: us, r)
      | None => pollVideoStatus_loop remaining' attempts fetch
      end
  end.

Definition pollVideoStatus (fetch : nat -> option StatusData.t) : list Update * PollResult :=
  pollVideoStatus_loop maxAttempts 0 fetch.

End StatusGuide.

(** ** [services/storage.js]

    The service talks to three collaborators: the IPFS daemon's HTTP API
    (through [axios.post]), the host ([df] through [execPromise]) and the
    clock ([Date]).  They are the operations of a [Backend]; every operation
    may fail with an error message and may change the collaborator's state
    (time passes, pins disappear).  The service's own code is written in the
    monad [M] of computations that can throw, over a [World] that also
    records the requests issued and the lines logged. *)

Module Storage.

(** The outcome of an awaited call: a value, or a thrown [Error] with its [message]. *)
Inductive Res (A : Type) : Type :=
| Ok (a : A)
| Throw (message : string).
Arguments Ok {A} a.
Arguments Throw {A} message.

(** [response.data] of [/api/v0/repo/stat]. *)
Record RepoStatData : Type := mkRepoStatData {
  RepoSize : Z;
  StorageMax : Z;
  NumObjects : Z;
  RepoPath : string;
  Version : string
}.

(** One value of [response.data.Keys] of [/api/v0/pin/ls]. *)
Record PinData : Type := mkPinData { PinType : string }.

(** [response.data] of [/api/v0/pin/ls]; [Keys], when present, is listed in
    [Object.entries] order. *)
Record PinLsData : Type := mkPinLsData { Keys : option (list (string * PinData)) }.

(** [response.data] of [/api/v0/object/stat]. *)
Record ObjectStatData : Type := mkObjectStatData { CumulativeSize : option Z }.

(** What [getDiskUsage] returns: the four columns printed by the
    [df -B1 / | tail -1 | awk ...] pipeline, each read by [parseInt]. *)
Record DiskUsage : Type := mkDiskUsage {
  total : Js.int;
  used : Js.int;
  available : Js.int;
  percentUsed : Js.int
}.

Class Backend (E : Type) : Type := {
  (** [Date.now()] *)
  clock : E -> Z;
  (** [POST /api/v0/repo/stat] *)
  repo_stat : E -> Res RepoStatData * E;
  (** [POST /api/v0/pin/ls?type=recursive] *)
  pin_ls : E -> Res PinLsData * E;
  (** [POST /api/v0/object/stat?arg=cid] *)
  object_stat : string -> E -> Res ObjectStatData * E;
  (** [POST /api/v0/pin/rm?arg=cid] *)
  pin_rm : string -> E -> Res unit * E;
  (** [POST /api/v0/repo/gc] *)
  repo_gc : E -> Res unit * E;
  (** the [df] pipeline with its columns parsed *)
  df : E -> Res DiskUsage * E
}.

Inductive Request : Type :=
| RepoStat
| PinLs
| ObjectStat (cid : string)
| PinRm (cid : string)
| RepoGc
| Df.

Record LogLine : Type := mkLogLine { log_level : string; text : string; detail : string }.

Record World (E : Type) : Type := mkWorld {
  backend : E;
  requests : list Request;
  logged : list LogLine
}.
Arguments mkWorld {E} backend requests logged.
Arguments backend {E} w.
Arguments requests {E} w.
Arguments logged {E} w.

(** **** Results of the service's operations *)

Record RepoStats : Type := mkRepoStats {
  repoSize : Z;
  storageMax : Z;
  numObjects : Z;
  repoPath : string;
  version : string
}.

Record Health : Type := mkHealth { level : string; color : string }.

(** The [ipfs] part of the object returned by [getStorageStats]; its
    [percentOfDisk] field, a floating-point quotient formatted by
    [toFixed(2)], is not represented. *)
Record IpfsStats : Type := mkIpfsStats {
  ipfs_repoSize : Z;
  ipfs_storageMax : Z;
  ipfs_numObjects : Z
}.

Record StorageStats : Type := mkStorageStats {
  disk : DiskUsage;
  ipfs : IpfsStats;
  status : Health;
  stats_timestamp : Z
}.

Module PinEntry.
Record t : Type := mk { cid : string; type : string; size : Z; timestamp : Z }.
End PinEntry.

Record UnpinResults : Type := mkUnpinResults {
  success : list string;
  failed : list (string * string);   (* [{ cid, error }] *)
  skipped : list string
}.

Record GcResult : Type := mkGcResult {
  gc_success : bool;
  spaceFreed : Z;
  beforeSize : Z;
  afterSize : Z;
  duration : Z;
  gc_timestamp : Z
}.

Record Estimate : Type := mkEstimate { estimated : Z; note : string }.

Definition MIN_AGE_HOURS : Z := 24.

Section Service.

Context {E : Type} {BE : Backend E}.

Definition M (A : Type) : Type := World E -> Res A * World E.

Definition ret {A : Type} (a : A) : M A := fun w => (Ok a, w).

Definition bind {A B : Type} (m : M A) (k : A -> M B) : M B :=
  fun w =>
    match m w with
    | (Ok a, w') => k a w'
    | (Throw e, w') => (Throw e, w')
    end.

Definition throw {A : Type} (message : string) : M A := fun w => (Throw message, w).

(** [try { m } catch (error) { handler(error.message) }] *)
Definition try_catch {A : Type} (m : M A) (handler : string -> M A) : M A :=
  fun w =>
    match m w with
    | (Ok a, w') => (Ok a, w')
    | (Throw e, w') => handler e w'
    end.

(** [await] of one request to a collaborator. *)
Definition call {A : Type} (r : Request) (op : E -> Res A * E) : M A :=
  fun w =>
    let '(res, e') := op (backend w) in
    (res, mkWorld e' (requests w ++ [r]) (logged w)).

Definition Date_now : M Z := fun w => (Ok (clock (backend w)), w).

Definition logger (lvl text detail : string) : M unit :=
  fun w => (Ok tt, mkWorld (backend w) (requests w) (logged w ++ [mkLogLine lvl text detail])).

Definition logger_info (text : string) : M unit := logger "info" text "".
Definition logger_error (text detail : string) : M unit := logger "error" text detail.

End Service.

Notation "x <- m ;; k" := (bind m (fun x => k))
  (at level 61, m at next level, right associativity).
Notation "m ;;; k" := (bind m (fun _ => k))
  (at level 61, right associativity).

Section Operations.

Context {E : Type} {BE : Backend E}.

(** [getRepoStats()] *)
Definition getRepoStats : M (E := E) RepoStats :=
  try_catch
    (response <- call RepoStat repo_stat ;;
     ret {| repoSize := RepoSize response;
            storageMax := StorageMax response;
            numObjects := NumObjects response;
            repoPath := RepoPath response;
            version := Version response |})
    (fun error =>
       logger_error "Error getting IPFS repo stats:" error ;;;
       throw "Failed to get IPFS repository statistics").

(** [getDiskUsage()] *)
Definition getDiskUsage : M (E := E) DiskUsage :=
  try_catch
    (stdout <- call Df df ;;
     ret {| total := total stdout;
            used := used stdout;
            available := available stdout;
            percentUsed := percentUsed stdout |})
    (fun error =>
       logger_error "Error getting disk usage:" error ;;;
       throw "Failed to get disk usage statistics").

(** [Promise.all([a, b])]: both computations are started, so both take
    effect; the result is the pair of their values, or the rejection of
    the one that failed.  The daemon request is issued first. *)
Definition Promise_all2 {A B : Type} (a : M (E := E) A) (b : M (E := E) B) : M (A * B) :=
  fun w =>
    let '(ra, w1) := a w in
    let '(rb, w2) := b w1 in
    match ra, rb with
    | Ok x, Ok y => (Ok (x, y), w2)
    | Throw e, _ => (Throw e, w2)
    | Ok _, Throw e => (Throw e, w2)
    end.

(** The "determine health status" block of [getStorageStats]. *)
Definition healthStatus (percentUsed : Js.int) : Health :=
  if Js.gt percentUsed 80 then {| level := "critical"; color := "red" |}
  else if Js.gt percentUsed 60 then {| level := "warning"; color := "yellow" |}
  else {| level := "healthy"; color := "green" |}.

(** [getStorageStats()] *)
Definition getStorageStats : M (E := E) StorageStats :=
  try_catch
    (both <- Promise_all2 getRepoStats getDiskUsage ;;
     let '(repoStats, diskStats) := both in
     now <- Date_now ;;
     ret {| disk := {| total := total diskStats;
                       used := used diskStats;
                       available := available diskStats;
                       percentUsed := percentUsed diskStats |};
            ipfs := {| ipfs_repoSize := repoSize repoStats;
                       ipfs_storageMax := storageMax repoStats;
                       ipfs_numObjects := numObjects repoStats |};
            status := healthStatus (percentUsed diskStats);
            stats_timestamp := now |})
    (fun error =>
       logger_error "Error getting storage stats:" error ;;;
       throw error).

(** The body of the [for (const [cid, pinData] of Object.entries(pins))]
    loop of [listPinnedFiles], with [pinList] as accumulator. *)
Fixpoint listPinned_loop (entries : list (string * PinData)) (pinList : list PinEntry.t)
  : M (E := E) (list PinEntry.t) :=
  match entries with
  | [] => ret pinList
  | (cid, pinData) :: rest =>
      pinList' <-
        try_catch
          (statResponse <- call (ObjectStat cid) (object_stat cid) ;;
           now <- Date_now ;;
           ret (pinList ++ [ PinEntry.mk cid (PinType pinData)
                               (Js.or_zeroZ (CumulativeSize statResponse)) now ])%list)
          (fun _ =>
             now <- Date_now ;;
             ret (pinList ++ [ PinEntry.mk cid (PinType pinData) 0 now ])%list) ;;
      listPinned_loop rest pinList'
  end.

(** [listPinnedFiles()] *)
Definition listPinnedFiles : M (E := E) (list PinEntry.t) :=
  try_catch
    (response <- call PinLs pin_ls ;;
     let pins := match Keys response with Some k => k | None => [] end in
     listPinned_loop pins [])
    (fun error =>
       logger_error "Error listing pinned files:" error ;;;
       throw "Failed to list pinned files").

(** The body of the [for (const cid of cids)] loop of [unpinFiles], with
    [results] as accumulator. *)
Fixpoint unpin_loop (cids : list string) (force : bool) (results : UnpinResults)
  : M (E := E) UnpinResults :=
  match cids with
  | [] => ret results
  | cid :: rest =>
      results' <-
        try_catch
          ((if negb force
            then logger_info ("Unpinning CID: " ++ cid)
            else ret tt) ;;;
           call (PinRm cid) (pin_rm cid) ;;;
           let results1 := {| success := (success results ++ [cid])%list;
                              failed := failed results;
                              skipped := skipped results |} in
           logger_info ("Successfully unpinned: " ++ cid) ;;;
           ret results1)
          (fun error =>
             logger_error ("Failed to unpin " ++ cid ++ ":") error ;;;
             ret {| success := success results;
                    failed := (failed results ++ [(cid, error)])%list;
                    skipped := skipped results |}) ;;
      unpin_loop rest force results'
  end.

(** [unpinFiles(cids, force = false)] *)
Definition unpinFiles (cids : list string) (force : bool) : M (E := E) UnpinResults :=
  unpin_loop cids force {| success := []; failed := []; skipped := [] |}.

(** [listUnpinnedFiles()] *)
Definition listUnpinnedFiles : M (E := E) (list string) :=
  try_catch (ret []) (fun error => logger_error "Error listing unpinned files:" error ;;; ret []).

(** [runGarbageCollection()] *)
Definition runGarbageCollection : M (E := E) GcResult :=
  try_catch
    (logger_info "Starting IPFS garbage collection..." ;;;
     startTime <- Date_now ;;
     beforeStats <- getRepoStats ;;
     call RepoGc repo_gc ;;;
     afterStats <- getRepoStats ;;
     now <- Date_now ;;
     let duration := now - startTime in
     let spaceFreed := repoSize beforeStats - repoSize afterStats in
     logger_info ("Garbage collection completed in " ++ Js.string_of_Z duration
                  ++ "ms, freed " ++ Js.string_of_Z spaceFreed ++ " bytes") ;;;
     stamp <- Date_now ;;
     ret {| gc_success := true;
            spaceFreed := spaceFreed;
            beforeSize := repoSize beforeStats;
            afterSize := repoSize afterStats;
            duration := duration;
            gc_timestamp := stamp |})
    (fun error =>
       logger_error "Error running garbage collection:" error ;;;
       throw ("Failed to run garbage collection: " ++ error)).

(** [estimateReclaimableSpace()] *)
Definition estimateReclaimableSpace : M (E := E) Estimate :=
  try_catch
    (repoStats <- getRepoStats ;;
     ret {| estimated := 0; note := "Run garbage collection to see actual space freed" |})
    (fun error =>
       logger_error "Error estimating reclaimable space:" error ;;;
       ret {| estimated := 0; note := "Unable to estimate" |}).

End Operations.

End Storage.

(** ** [routes/storage.js]: the handlers behind [requireStorageAuth] *)

Module Routes.

Import Storage.

(** [req.body] of [POST /unpin]; [cids] is [None] when the field is missing
    or is not an array. *)
Record UnpinBody : Type := mkUnpinBody { cids : option (list string); force : option bool }.

Module UnpinResponse.
Record t : Type := mk {
  code : Z;
  success : bool;
  data : option UnpinResults;
  message : option string;
  error : option string
}.
End UnpinResponse.

Module HealthResponse.
Record t : Type := mk {
  code : Z;
  success : bool;
  healthy : bool;
  status : option Health;
  error : option string
}.
End HealthResponse.

Module GcResponse.
Record t : Type := mk {
  code : Z;
  success : bool;
  data : option GcResult;
  error : option string
}.
End GcResponse.

Module StatsResponse.
Record t : Type := mk {
  code : Z;
  success : bool;
  data : option StorageStats;
  error : option string
}.
End StatsResponse.

Module PinnedResponse.
Record t : Type := mk {
  code : Z;
  success : bool;
  count : option Z;
  data : option (list PinEntry.t);
  error : option string
}.
End PinnedResponse.

Module UnpinnedResponse.
Record t : Type := mk {
  code : Z;
  success : bool;
  count : option Z;
  data : option (list string);
  reclaimable : option Estimate;
  error : option string
}.
End UnpinnedResponse.

Section Handlers.

Context {E : Type} {BE : Backend E}.

(** [router.post('/unpin', ...)] *)
Definition post_unpin (body : UnpinBody) : M (E := E) UnpinResponse.t :=
  try_catch
    (let force := match force body with Some b => b | None => false end in
     match cids body with
     | None | Some [] =>
         ret (UnpinResponse.mk 400 false None None
                (Some "Invalid request: cids array is required"))
     | Some cids =>
         logger_info ("Unpinning " ++ Js.string_of_Z (Z.of_nat (List.length cids))
                      ++ " files...") ;;;
         results <- unpinFiles cids force ;;
         ret (UnpinResponse.mk 200 true (Some results)
                (Some ("Unpinned "
                       ++ Js.string_of_Z (Z.of_nat (List.length (Storage.success results)))
                       ++ " files, "
                       ++ Js.string_of_Z (Z.of_nat (List.length (Storage.failed results)))
                       ++ " failed"))
                None)
     end)
    (fun error =>
       logger_error "Error unpinning files:" error ;;;
       ret (UnpinResponse.mk 500 false None None (Some error))).

(** [router.post('/gc', ...)]; the [message] built with [formatBytes]
    (floating point) is not represented. *)
Definition post_gc : M (E := E) GcResponse.t :=
  try_catch
    (logger_info "Garbage collection requested by admin" ;;;
     result <- runGarbageCollection ;;
     ret (GcResponse.mk 200 true (Some result) None))
    (fun error =>
       logger_error "Error running garbage collection:" error ;;;
       ret (GcResponse.mk 500 false None (Some error))).

(** [router.get('/health', ...)] *)
Definition get_health : M (E := E) HealthResponse.t :=
  try_catch
    (stats <- getStorageStats ;;
     ret (HealthResponse.mk 200 true
            (negb (level (Storage.status stats) =? "critical")%string)
            (Some (Storage.status stats)) None))
    (fun error =>
       ret (HealthResponse.mk 500 false false None (Some error))).

(** [router.get('/stats', ...)] *)
Definition get_stats : M (E := E) StatsResponse.t :=
  try_catch
    (stats <- getStorageStats ;;
     ret (StatsResponse.mk 200 true (Some stats) None))
    (fun error =>
       logger_error "Error getting storage stats:" error ;;;
       ret (StatsResponse.mk 500 false None (Some error))).

(** [router.get('/pinned', ...)] *)
Definition get_pinned : M (E := E) PinnedResponse.t :=
  try_catch
    (pinnedFiles <- listPinnedFiles ;;
     ret (PinnedResponse.mk 200 true (Some (Z.of_nat (List.length pinnedFiles)))
            (Some pinnedFiles) None))
    (fun error =>
       logger_error "Error listing pinned files:" error ;;;
       ret (PinnedResponse.mk 500 false None None (Some error))).

(** [router.get('/unpinned', ...)] *)
Definition get_unpinned : M (E := E) UnpinnedResponse.t :=
  try_catch
    (unpinnedFiles <- listUnpinnedFiles ;;
     estimate <- estimateReclaimableSpace ;;
     ret (UnpinnedResponse.mk 200 true (Some (Z.of_nat (List.length unpinnedFiles)))
            (Some unpinnedFiles) (Some estimate) None))
    (fun error =>
       logger_error "Error listing unpinned files:" error ;;;
       ret (UnpinnedResponse.mk 500 false None None None (Some error))).

End Handlers.

(** **** [requireStorageAuth] *)

(** The two variables of [process.env] the middleware reads. *)
Record Env : Type := mkEnv {
  IPFS_STORAGE_ADMIN_USERNAME : option string;
  IPFS_STORAGE_ADMIN_PASSWORD : option string
}.

(** A response sent by the middleware itself: the status code, whether the
    [WWW-Authenticate: Basic realm="IPFS Storage Management"] header was
    set, and the [error] of the body. *)
Record Rejection : Type := mkRejection {
  rejection_code : Z;
  challenge : bool;
  rejection_error : string
}.

Inductive AuthOutcome : Type :=
| Next
| Reject (r : Rejection).

Section Auth.

Context {E : Type} {BE : Backend E}.

(** [Buffer.from(text, 'base64').toString('utf-8')]; it is supplied by the
    runtime, so it is a parameter here, and it may throw. *)
Variable base64_decode : string -> Res string.

(** [requireStorageAuth(req, res, next)], with [authorization] the value of
    [req.headers.authorization]. *)
Definition requireStorageAuth (env : Env) (authorization : option string)
  : M (E := E) AuthOutcome :=
  match authorization with
  | None | Some EmptyString =>
      ret (Reject (mkRejection 401 true "Authentication required"))
  | Some authHeader =>
      if negb (String.prefix "Basic " authHeader)
      then ret (Reject (mkRejection 401 true "Authentication required"))
      else
        try_catch
          (let base64Credentials := nth 1 (Js.split " " authHeader) "" in
           credentials <- (fun w => (base64_decode base64Credentials, w)) ;;
           let fields := Js.split ":" credentials in
           let username := nth 0 fields "" in
           let password := nth_error fields 1 in
           let validUsername := Js.or_string (IPFS_STORAGE_ADMIN_USERNAME env) "admin" in
           match IPFS_STORAGE_ADMIN_PASSWORD env with
           | None | Some EmptyString =>
               logger_error "IPFS_STORAGE_ADMIN_PASSWORD not configured" "" ;;;
               ret (Reject (mkRejection 500 false "Storage authentication not configured"))
           | Some validPassword =>
               if (username =? validUsername)%string
                  && match password with
                     | Some pw => (pw =? validPassword)%string
                     | None => false
                     end
               then ret Next
               else ret (Reject (mkRejection 401 true "Invalid credentials"))
           end)
          (fun error =>
             logger_error "Auth error:" error ;;;
             ret (Reject (mkRejection 401 true "Invalid authentication format")))
  end.

(** [router.METHOD(path, requireStorageAuth, handler)]: the handler runs
    only after the middleware called [next()]. *)
Definition guarded {R : Type} (env : Env) (authorization : option string)
           (handler : M (E := E) R) : M (E := E) (Rejection + R) :=
  outcome <- requireStorageAuth env authorization ;;
  match outcome with
  | Next => r <- handler ;; ret (inr r)
  | Reject r => ret (inl r)
  end.

End Auth.

End Routes.

(** ** [public/js/storage-client.js]: the dashboard's age gate *)

Module StorageManager.

Record Age : Type := mkAge { hours : Z; days : Z; display : string }.

(** [calculateAge(timestamp)], with [now] the browser's [new Date()]. *)
Definition calculateAge (now timestamp : Z) : Age :=
  let diffMs := now - timestamp in
  let diffHours := diffMs / (1000 * 60 * 60) in
  let diffDays := diffHours / 24 in
  let display :=
    if diffHours <? 1 then "< 1 hour"
    else if diffHours <? 24 then Js.string_of_Z diffHours ++ " hours"
    else Js.string_of_Z diffDays ++ " days" in
  {| hours := diffHours; days := diffDays; display := display |}.

(** One table row built by [displayPinnedFiles]: its checkbox and its
    "Unpin" button are both disabled unless [canUnpin]. *)
Record Row : Type := mkRow {
  row_cid : string;
  canUnpin : bool;
  ageClass : string;
  age_display : string
}.

Definition displayRow (now : Z) (file : Storage.PinEntry.t) : Row :=
  let age := calculateAge now (Storage.PinEntry.timestamp file) in
  let canUnpin := 24 <=? hours age in
  let ageClass :=
    if hours age <? 24 then "age-new"
    else if days age <? 7 then "age-recent"
    else "age-old" in
  {| row_cid := Storage.PinEntry.cid file;
     canUnpin := canUnpin;
     ageClass := ageClass;
     age_display := display age |}.

Definition displayPinnedFiles (now : Z) (files : list Storage.PinEntry.t) : list Row :=
  map (displayRow now) files.

(** [handleSelectAll(true)]: every checkbox that is not disabled is added
    to [selectedCIDs]. *)
Definition handleSelectAll (rows : list Row) : list string :=
  map row_cid (filter canUnpin rows).

(** [performUnpin(cids)]: the request body sent to [POST /api/storage/unpin];
    the dashboard never sets [force]. *)
Definition performUnpin (cids : list string) : Routes.UnpinBody :=
  {| Routes.cids := Some cids; Routes.force := None |}.

(** **** The selection

    [selectedCIDs] is a [Set]; it is kept as the list of its members in
    insertion order. *)

Definition Set_has (x : string) (s : list string) : bool := existsb (String.eqb x) s.

Definition Set_add (x : string) (s : list string) : list string :=
  if Set_has x s then s else s ++ [x].

Definition Set_delete (x : string) (s : list string) : list string :=
  filter (fun y => negb (y =? x)%string) s.

(** Whether the table holds an enabled checkbox whose value is [cid]. *)
Definition enabled (rows : list Row) (cid : string) : bool :=
  existsb (fun r => canUnpin r && (row_cid r =? cid)%string) rows.

(** What the user can do on the rendered table: flip one checkbox, or flip
    the "select all" box. *)
Inductive UiEvent : Type :=
| CheckboxChange (cid : string) (checked : bool)
| SelectAllChange (checked : bool).

(** The [change] listener attached to every [.file-checkbox]; a disabled
    checkbox (or one that is not in the table) receives no event. *)
Definition onCheckboxChange (rows : list Row) (cid : string) (checked : bool)
           (selectedCIDs : list string) : list string :=
  if enabled rows cid
  then if checked then Set_add cid selectedCIDs else Set_delete cid selectedCIDs
  else selectedCIDs.

(** [handleSelectAll(checked)] on an existing selection: each checkbox
    matching [.file-checkbox:not(:disabled)] is visited in table order. *)
Definition handleSelectAllOn (checked : bool) (rows : list Row) (selectedCIDs : list string)
  : list string :=
  fold_left (fun sel r => if checked then Set_add (row_cid r) sel else Set_delete (row_cid r) sel)
            (filter canUnpin rows) selectedCIDs.

Definition ui_step (rows : list Row) (selectedCIDs : list string) (ev : UiEvent) : list string :=
  match ev with
  | CheckboxChange cid checked => onCheckboxChange rows cid checked selectedCIDs
  | SelectAllChange checked => handleSelectAllOn checked rows selectedCIDs
  end.

(** [updateSelectedCount()]: the counter shown and whether the
    "unpin selected" button is disabled. *)
Definition updateSelectedCount (selectedCIDs : list string) : Z * bool :=
  let count := Z.of_nat (List.length selectedCIDs) in
  (count, count =? 0).

(** [unpinSelected()] once the modal is confirmed: nothing is sent for an
    empty selection. *)
Definition unpinSelected (selectedCIDs : list string) : option Routes.UnpinBody :=
  match selectedCIDs with
  | [] => None
  | _ => Some (performUnpin selectedCIDs)
  end.

(** **** Talking to the API *)

(** What the client reads of a response: its status and the [error] of
    its JSON body. *)
Record HttpResponse : Type := mkHttpResponse {
  http_status : Z;
  body_error : option string
}.

(** [response.ok] *)
Definition ok (r : HttpResponse) : bool := (200 <=? http_status r) && (http_status r <=? 299).

(** [fetchAPI(endpoint, options)] once the response has arrived, for a
    session holding [credentials]: the result (the parsed body [data], or a
    thrown error) and the credentials kept ([None] after [handleLogout]). *)
Definition fetchAPI {D : Type} (credentials : option string)
           (response : HttpResponse) (data : D) : Storage.Res D * option string :=
  if http_status response =? 401
  then (Storage.Throw "Authentication failed", None)
  else if negb (ok response)
       then (Storage.Throw (Js.or_string (body_error response) "Request failed"), credentials)
       else (Storage.Ok data, credentials).

Section Login.

(** [btoa], supplied by the browser. *)
Variable btoa : string -> string.

(** The [Authorization] header sent by [handleLogin] and [fetchAPI]. *)
Definition authorization_header (username password : string) : string :=
  "Basic " ++ btoa (username ++ ":" ++ password).

(** [handleLogin()] once the test request to [/api/storage/stats] has been
    answered (or has itself failed, with that message): the credentials
    kept in the session and the text shown in [login-error]. *)
Definition handleLogin (username password : string)
           (response : HttpResponse + string) : option string * option string :=
  let credentials := btoa (username ++ ":" ++ password) in
  match response with
  | inl r =>
      if ok r then (Some credentials, None)
      else (None, Some ("❌ " ++ "Invalid credentials"))
  | inr message => (None, Some ("❌ " ++ message))
  end.

End Login.

(** How a middleware rejection reaches the client:
    [res.status(code).json({ success: false, error })]. *)
Definition rejection_response (r : Routes.Rejection) : HttpResponse :=
  {| http_status := Routes.rejection_code r; body_error := Some (Routes.rejection_error r) |}.

End StorageManager.

(** ** [scripts/setup-temp-uploads-collection.js] *)

Module TempUploads.

(** The options object of [collection.createIndex(keys, options)]. *)
Record IndexSpec : Type := mkIndexSpec {
  key : list (string * Z);
  unique : bool;
  expireAfterSeconds : option Z;
  name : string
}.

Definition upload_id_unique : IndexSpec :=
  {| key := [("upload_id", 1)]; unique := true; expireAfterSeconds := None;
     name := "upload_id_unique" |}.
Definition owner_created : IndexSpec :=
  {| key := [("owner", 1); ("created", -1)]; unique := false; expireAfterSeconds := None;
     name := "owner_created" |}.
Definition tus_finalized_status : IndexSpec :=
  {| key := [("tus_completed", 1); ("finalized", 1)]; unique := false;
     expireAfterSeconds := None; name := "tus_finalized_status" |}.
Definition video_id_index : IndexSpec :=
  {| key := [("video_id", 1)]; unique := false; expireAfterSeconds := None;
     name := "video_id" |}.
Definition expires_ttl : IndexSpec :=
  {| key := [("expires", 1)]; unique := false; expireAfterSeconds := Some 0;
     name := "expires_ttl" |}.

(** [setupTempUploadsCollection()]: every index except [_id_] is dropped,
    then the five indexes are created; the result is the collection's
    index set. *)
Definition setupTempUploadsCollection (existingIndexes : list IndexSpec) : list IndexSpec :=
  filter (fun index => (name index =? "_id_")%string) existingIndexes
  ++ [upload_id_unique; owner_created; tus_finalized_status; video_id_index; expires_ttl].

(** A document of [temp_uploads]; [expires] is a [Date] in milliseconds. *)
Record TempUpload : Type := mkTempUpload {
  upload_id : string;
  owner : string;
  tus_completed : bool;
  finalized : bool;
  video_id : option string;
  expires : option Z
}.

(** The date stored under a field name; [expires] is the only date the
    indexes above refer to. *)
Definition date_field (doc : TempUpload) (field : string) : option Z :=
  if (field =? "expires")%string then expires doc else None.

(** MongoDB's TTL rule for one index, as the script's header states it
    ("MongoDB will automatically delete documents where expires <
    current_time"): a single-field index carrying [expireAfterSeconds]
    expires a document once the indexed date plus that many seconds is in
    the past.  The index options carry no filter on any other field. *)
Definition ttl_expired (index : IndexSpec) (now : Z) (doc : TempUpload) : bool :=
  match expireAfterSeconds index, key index with
  | Some seconds, [(field, _)] =>
      match date_field doc field with
      | Some date => date + seconds * 1000 <? now
      | None => false
      end
  | _, _ => false
  end.

(** Whether [doc] is due for deletion by the collection's expiry mechanism
    at time [now]. *)
Definition auto_deleted (indexes : list IndexSpec) (now : Z) (doc : TempUpload) : bool :=
  existsb (fun index => ttl_expired index now doc) indexes.

(** One pass of the TTL monitor over the collection. *)
Definition ttl_pass (indexes : list IndexSpec) (now : Z) (docs : list TempUpload)
  : list TempUpload :=
  filter (fun doc => negb (auto_deleted indexes now doc)) docs.

End TempUploads.

(** ** What the daemon sees of a bulk unpin

    [pin_rm_run cids e] issues [pin/rm] for each cid in turn, starting from
    the collaborator state [e], and records each outcome; it is the yardstick
    against which [Storage.unpinFiles] is compared. *)

Module Yardstick.

Import Storage.

Section Run.

Context {E : Type} {BE : Backend E}.

Fixpoint pin_rm_run (cids : list string) (e : E) : list (string * Res unit) * E :=
  match cids with
  | [] => ([], e)
  | cid :: rest =>
      let '(r, e1) := pin_rm cid e in
      let '(rs, e2) := pin_rm_run rest e1 in
      ((cid, r) :: rs, e2)
  end.

Definition succeeded (outcomes : list (string * Res unit)) : list string :=
  flat_map (fun o => match snd o with Ok _ => [fst o] | Throw _ => [] end) outcomes.

Definition rejected (outcomes : list (string * Res unit)) : list (string * string) :=
  flat_map (fun o => match snd o with Ok _ => [] | Throw m => [(fst o, m)] end) outcomes.

(** The [object/stat] requests of one listing: the outcome of each
    request, paired with the collaborator state it leaves behind. *)
Fixpoint object_stat_run (entries : list (string * PinData)) (e : E)
  : list (Res ObjectStatData * E) :=
  match entries with
  | [] => []
  | (cid, _) :: rest =>
      let o := object_stat cid e in
      o :: object_stat_run rest (snd o)
  end.

(** How a pin [k] whose [object/stat] request ended as [o] must show up
    in the listing. *)
Definition listed_as (ko : (string * PinData) * (Res ObjectStatData * E))
           (p : PinEntry.t) : Prop :=
  let '(k, o) := ko in
  PinEntry.cid p = fst k
  /\ PinEntry.type p = PinType (snd k)
  /\ PinEntry.size p = match fst o with
                       | Ok d => Js.or_zeroZ (CumulativeSize d)
                       | Throw _ => 0
                       end
  /\ PinEntry.timestamp p = clock (snd o).

End Run.

End Yardstick.

(** ** A small IPFS node, used to run the service on concrete inputs *)

Module Node.

Import Storage.

Record t : Type := mk {
  now : Z;                          (* host clock, milliseconds *)
  latency : Z;                      (* time taken by every request *)
  online : bool;                    (* whether the HTTP API answers *)
  pins : list (string * PinData);   (* recursive pins *)
  objects : list (string * Z);      (* cumulative sizes known to object/stat *)
  repo : Z;                         (* repository size in bytes *)
  garbage : Z;                      (* bytes held by unpinned blocks *)
  incoming : Z;                     (* bytes written by other clients during a gc *)
  host : option DiskUsage           (* the df columns; None: df unavailable *)
}.

Definition tick (n : t) : t :=
  mk (now n + latency n) (latency n) (online n) (pins n) (objects n)
     (repo n) (garbage n) (incoming n) (host n).

(** Wall-clock time passing between two requests. *)
Definition elapse (ms : Z) (n : t) : t :=
  mk (now n + ms) (latency n) (online n) (pins n) (objects n)
     (repo n) (garbage n) (incoming n) (host n).

Definition refused {A : Type} : Res A := Throw "connect ECONNREFUSED 127.0.0.1:5001".
Definition status500 {A : Type} : Res A := Throw "Request failed with status code 500".

Fixpoint lookup {A : Type} (k : string) (l : list (string * A)) : option A :=
  match l with
  | [] => None
  | (k', v) :: rest => if (k =? k')%string then Some v else lookup k rest
  end.

Definition node_repo_stat (n : t) : Res RepoStatData * t :=
  if online n
  then (Ok (mkRepoStatData (repo n) 10000000000 (Z.of_nat (List.length (objects n)))
              "/data/ipfs" "fs-repo@15"), tick n)
  else (refused, tick n).

Definition node_pin_ls (n : t) : Res PinLsData * t :=
  if online n then (Ok (mkPinLsData (Some (pins n))), tick n) else (refused, tick n).

Definition node_object_stat (cid : string) (n : t) : Res ObjectStatData * t :=
  if online n
  then match lookup cid (objects n) with
       | Some size => (Ok (mkObjectStatData (Some size)), tick n)
       | None => (status500, tick n)
       end
  else (refused, tick n).

Definition node_pin_rm (cid : string) (n : t) : Res unit * t :=
  if online n
  then match lookup cid (pins n) with
       | Some _ =>
           let freed := match lookup cid (objects n) with Some s => s | None => 0 end in
           (Ok tt,
            mk (now n + latency n) (latency n) (online n)
               (filter (fun p => negb (fst p =? cid)%string) (pins n))
               (objects n) (repo n) (garbage n + freed) (incoming n) (host n))
       | None => (status500, tick n)
       end
  else (refused, tick n).

Definition node_repo_gc (n : t) : Res unit * t :=
  if online n
  then (Ok tt,
        mk (now n + latency n) (latency n) (online n) (pins n) (objects n)
           (repo n - garbage n + incoming n) 0 0 (host n))
  else (refused, tick n).

Definition node_df (n : t) : Res DiskUsage * t :=
  match host n with
  | Some d => (Ok d, tick n)
  | None => (Throw "Command failed: df -B1 /", tick n)
  end.

#[global] Instance backend : Backend t := {
  clock := now;
  repo_stat := node_repo_stat;
  pin_ls := node_pin_ls;
  object_stat := node_object_stat;
  pin_rm := node_pin_rm;
  repo_gc := node_repo_gc;
  df := node_df
}.

(** A fresh world around a node: nothing requested, nothing logged. *)
Definition world (n : t) : World t := mkWorld n [] [].

Definition recursive : PinData := mkPinData "recursive".

Definition hour : Z := 1000 * 60 * 60.

(** A node holding two pins; [object/stat] answers for the first only. *)
Definition sample (percent : Z) : t :=
  mk 1700000000000 5 true
     [("QmVideoA", recursive); ("QmVideoB", recursive)]
     [("QmVideoA", 4096)]
     1000000 0 0
     (Some (mkDiskUsage (Js.Int 500000000) (Js.Int (5000000 * percent))
                        (Js.Int (500000000 - 5000000 * percent)) (Js.Int percent))).

(** The same node with its HTTP API unreachable. *)
Definition offline (percent : Z) : t :=
  mk (now (sample percent)) (latency (sample percent)) false (pins (sample percent))
     (objects (sample percent)) (repo (sample percent)) (garbage (sample percent))
     (incoming (sample percent)) (host (sample percent)).

(** A node that holds 100 bytes of garbage and receives 150 bytes from
    other clients while the collection runs. *)
Definition busy : t :=
  mk 1700000000000 5 true
     [("QmVideoA", recursive)]
     [("QmVideoA", 4096)]
     1000000 100 150
     None.

End Node.

(** ** Sample status responses *)

Module Samples.

Definition stale_failed_job : Job.t :=
  Job.mk "6f1c2a9e-0d41-4c55-9a59-0f6f8f1f3b10" "failed"
         (Some (Progress.mk (Some (40 # 1)) (Some (100 # 1)))).

(** A published video whose job store still reports a failure. *)
Definition published_with_failed_job : StatusData.t :=
  StatusData.mk (Video.mk "published" "alice" "abcd1234") (Some stale_failed_job).

Definition finished_job : Job.t :=
  Job.mk "6f1c2a9e-0d41-4c55-9a59-0f6f8f1f3b10" "complete"
         (Some (Progress.mk (Some (100 # 1)) (Some (100 # 1)))).

(** Encoding has finished, the publisher has not run yet. *)
Definition encoded_not_published : StatusData.t :=
  StatusData.mk (Video.mk "encoding_ipfs" "alice" "abcd1234") (Some finished_job).

(** The collection's default index. *)
Definition id_index : TempUploads.IndexSpec :=
  TempUploads.mkIndexSpec [("_id", 1)] true None "_id_".

(** A session that was finalized (its video exists) and whose [expires]
    date, 1 January 2026 00:00 UTC, has passed. *)
Definition finalized_session : TempUploads.TempUpload :=
  TempUploads.mkTempUpload "3f2b8c1e" "alice" true true (Some "65f0c0ffee") (Some 1767225600000).

End Samples.

(** ** Proof support *)

(** Unfolds the service's monadic plumbing, leaving the collaborators'
    operations in place. *)
Ltac run_service :=
  cbv beta iota zeta delta
      [Storage.runGarbageCollection Storage.getRepoStats Storage.try_catch Storage.bind
       Storage.logger_info Storage.logger_error Storage.logger Storage.Date_now
       Storage.call Storage.ret Storage.throw
       Storage.backend Storage.requests Storage.logged].

(** The same for the loop of [unpinFiles] and for the routes. *)
Ltac run_unpin :=
  cbv beta iota zeta delta
      [Storage.try_catch Storage.bind Storage.logger_info Storage.logger_error Storage.logger
       Storage.call Storage.ret Storage.throw Storage.backend Storage.requests Storage.logged
       negb].

Ltac run_routes :=
  cbv beta iota zeta delta
      [Routes.post_gc Routes.get_unpinned Routes.get_stats Routes.get_health
       Storage.listUnpinnedFiles Storage.estimateReclaimableSpace
       Storage.runGarbageCollection Storage.getRepoStats Storage.try_catch Storage.bind
       Storage.logger_info Storage.logger_error Storage.logger Storage.Date_now
       Storage.call Storage.ret Storage.throw
       Storage.backend Storage.requests Storage.logged].

(** * Properties *)

(** ** The reconciler: published is the only "done" *)

Module StatusFacts.

Import Samples.

Lemma is_published_spec (v : Video.t) :
  ThreeSpeakUploader.is_published v = true <->
  Video.status v = "published" \/ Video.status v = "publish_manual".
Proof.
  unfold ThreeSpeakUploader.is_published.
  rewrite orb_true_iff, !String.eqb_eq. tauto.
Qed.

Lemma label_of_published (v : Video.t) (j : option Job.t) :
  ThreeSpeakUploader.is_published v = true ->
  ThreeSpeakUploader.getStatusLabel v j = "🎉 Published to Hive!"
  /\ StatusGuide.getStatusLabel v j = "🎉 Published to Hive!".
Proof.
  unfold ThreeSpeakUploader.is_published, ThreeSpeakUploader.getStatusLabel,
    StatusGuide.getStatusLabel.
  cbv zeta. intros ->. split; reflexivity.
Qed.

(** C1.  Whenever the video record's status is [published] or
    [publish_manual], the update built by either poller has
    [isComplete = true] and carries the terminal success label, whatever
    the job is (absent, running, or reporting [failed]); the published test
    comes first in [getStatusLabel], and both pollers stop on it. *)
Theorem published_always_complete (data : StatusData.t) :
  Video.status (StatusData.video data) = "published"
  \/ Video.status (StatusData.video data) = "publish_manual" ->
  let u := ThreeSpeakUploader.mk_update data in
  let g := StatusGuide.mk_update data in
  ThreeSpeakUploader.isComplete u = true
  /\ ThreeSpeakUploader.statusLabel u = "🎉 Published to Hive!"
  /\ StatusGuide.isComplete g = true
  /\ StatusGuide.label g = "🎉 Published to Hive!"
  /\ ThreeSpeakUploader.pollUntilPublished_tick (Some data) = (Some u, true)
  /\ (forall n attempts fetch,
         fetch (S attempts) = Some data ->
         StatusGuide.pollVideoStatus_loop (S n) attempts fetch
         = ([g], StatusGuide.Finished true (StatusData.video data) (StatusData.job data))).
Proof.
  intros Hpub u g.
  apply is_published_spec in Hpub.
  destruct (label_of_published _ (StatusData.job data) Hpub) as [L1 L2].
  repeat split.
  - exact Hpub.
  - exact L1.
  - exact Hpub.
  - exact L2.
  - unfold ThreeSpeakUploader.pollUntilPublished_tick. cbv zeta.
    rewrite Hpub. reflexivity.
  - intros n attempts fetch Hf. simpl. rewrite Hf, Hpub. reflexivity.
Qed.

Lemma published_always_complete_witness :
  ThreeSpeakUploader.isComplete (ThreeSpeakUploader.mk_update published_with_failed_job) = true
  /\ ThreeSpeakUploader.statusLabel (ThreeSpeakUploader.mk_update published_with_failed_job)
     = "🎉 Published to Hive!".
Proof.
  destruct (published_always_complete published_with_failed_job) as (H1 & H2 & _).
  - left. reflexivity.
  - split; [exact H1 | exact H2].
Defined.

(** C2.  While the video record is still [encoding_ipfs], a job reporting
    [complete] never makes the update complete: [isComplete] is [false] in
    both pollers, neither poller stops, and the label is the "publishing"
    one rather than the published one. *)
Theorem job_complete_is_not_done (data : StatusData.t) (j : Job.t) :
  Video.status (StatusData.video data) = "encoding_ipfs" ->
  StatusData.job data = Some j ->
  Job.status j = "complete" ->
  let u := ThreeSpeakUploader.mk_update data in
  let g := StatusGuide.mk_update data in
  ThreeSpeakUploader.isComplete u = false
  /\ StatusGuide.isComplete g = false
  /\ ThreeSpeakUploader.statusLabel u = "✅ Encoding complete! Publishing..."
  /\ StatusGuide.label g = "✅ Encoding complete! Publishing to Hive..."
  /\ ThreeSpeakUploader.pollUntilPublished_tick (Some data) = (Some u, false)
  /\ (forall n attempts fetch,
         fetch (S attempts) = Some data ->
         StatusGuide.pollVideoStatus_loop (S n) attempts fetch
         = (g :: fst (StatusGuide.pollVideoStatus_loop n (S attempts) fetch),
            snd (StatusGuide.pollVideoStatus_loop n (S attempts) fetch))).
Proof.
  intros Hv Hj Hs u g.
  assert (Hp : ThreeSpeakUploader.is_published (StatusData.video data) = false).
  { unfold ThreeSpeakUploader.is_published. rewrite Hv. reflexivity. }
  assert (Hf : ThreeSpeakUploader.is_failed (StatusData.video data) (StatusData.job data) = false).
  { unfold ThreeSpeakUploader.is_failed, job_status_is. rewrite Hv, Hj, Hs. reflexivity. }
  repeat split.
  - exact Hp.
  - exact Hp.
  - subst u. unfold ThreeSpeakUploader.mk_update, ThreeSpeakUploader.getStatusLabel.
    cbn [ThreeSpeakUploader.statusLabel]. cbv zeta.
    unfold job_status_is. rewrite Hv, Hj, Hs. reflexivity.
  - subst g. unfold StatusGuide.mk_update, StatusGuide.getStatusLabel.
    cbn [StatusGuide.label]. cbv zeta.
    unfold job_status_is. rewrite Hv, Hj, Hs. reflexivity.
  - unfold ThreeSpeakUploader.pollUntilPublished_tick. cbv zeta.
    rewrite Hp, Hf. reflexivity.
  - intros n attempts fetch Hfetch.
    cbn [StatusGuide.pollVideoStatus_loop]. rewrite Hfetch. cbv zeta.
    rewrite Hp, Hf.
    destruct (StatusGuide.pollVideoStatus_loop n (S attempts) fetch). reflexivity.
Qed.

Lemma job_complete_is_not_done_witness :
  ThreeSpeakUploader.isComplete (ThreeSpeakUploader.mk_update encoded_not_published) = false
  /\ StatusGuide.isComplete (StatusGuide.mk_update encoded_not_published) = false.
Proof.
  destruct (job_complete_is_not_done encoded_not_published finished_job) as (H1 & H2 & _).
  - reflexivity.
  - reflexivity.
  - reflexivity.
  - split; [exact H1 | exact H2].
Defined.

End StatusFacts.

(** ** The storage service: how its operations run *)

Module StorageFacts.

Import Storage Yardstick.
Local Open Scope list_scope.

Section Runs.

Context {E : Type} {BE : Backend E}.

Lemma getRepoStats_run (w : World E) :
  getRepoStats w =
  match repo_stat (backend w) with
  | (Ok r, e1) =>
      (Ok (mkRepoStats (RepoSize r) (StorageMax r) (NumObjects r) (RepoPath r) (Version r)),
       mkWorld e1 (requests w ++ [RepoStat]) (logged w))
  | (Throw m, e1) =>
      (Throw "Failed to get IPFS repository statistics",
       mkWorld e1 (requests w ++ [RepoStat])
               (logged w ++ [mkLogLine "error" "Error getting IPFS repo stats:" m]))
  end.
Proof.
  unfold getRepoStats, try_catch, bind, call, ret, throw, logger_error, logger.
  destruct (repo_stat (backend w)) as [[r | m] e1]; reflexivity.
Qed.

Lemma getDiskUsage_run (w : World E) :
  getDiskUsage w =
  match df (backend w) with
  | (Ok d, e1) => (Ok d, mkWorld e1 (requests w ++ [Df]) (logged w))
  | (Throw m, e1) =>
      (Throw "Failed to get disk usage statistics",
       mkWorld e1 (requests w ++ [Df])
               (logged w ++ [mkLogLine "error" "Error getting disk usage:" m]))
  end.
Proof.
  unfold getDiskUsage, try_catch, bind, call, ret, throw, logger_error, logger.
  destruct (df (backend w)) as [[d | m] e1]; [destruct d |]; reflexivity.
Qed.

(** The loop of [unpinFiles] against the yardstick: whatever [force] is,
    it never throws, it issues one [pin/rm] per requested cid in order,
    and it files each cid under the outcome the daemon gave for it. *)
Lemma unpin_loop_run (cids : list string) :
  forall (force : bool) (results : UnpinResults) (w : World E),
  exists w',
    unpin_loop cids force results w
    = (Ok {| success := success results ++ succeeded (fst (pin_rm_run cids (backend w)));
             failed := failed results ++ rejected (fst (pin_rm_run cids (backend w)));
             skipped := skipped results |}, w')
    /\ backend w' = snd (pin_rm_run cids (backend w))
    /\ requests w' = requests w ++ map PinRm cids.
Proof.
  induction cids as [| cid rest IH]; intros force results w.
  - exists w. cbn. rewrite !app_nil_r. destruct results; auto.
  - cbn [unpin_loop pin_rm_run].
    unfold bind at 1. unfold try_catch at 1.
    set (pre := if negb force then logger_info ("Unpinning CID: " ++ cid)%string else ret tt).
    assert (Hpre : exists lg, pre w = (Ok tt, mkWorld (backend w) (requests w) lg)).
    { subst pre. destruct force; cbn.
      - exists (logged w). destruct w; reflexivity.
      - eexists. reflexivity. }
    destruct Hpre as [lg Hpre].
    unfold bind at 1. rewrite Hpre.
    unfold bind at 1. unfold call at 1. cbn [backend requests logged].
    destruct (pin_rm cid (backend w)) as [[[] | m] e1] eqn:Hrm.
    + cbn.
      match goal with
      | |- context [unpin_loop rest force ?r ?w1] =>
          destruct (IH force r w1) as (w' & Hrun & Hb & Hq)
      end.
      cbn [backend requests success failed skipped] in Hrun, Hb, Hq.
      destruct (pin_rm_run rest e1) as [rs e2] eqn:Hrest.
      cbn [fst snd] in *.
      exists w'. rewrite Hrun, Hb, Hq.
      cbn [succeeded rejected flat_map fst snd map].
      rewrite <- !app_assoc. auto.
    + cbn.
      match goal with
      | |- context [unpin_loop rest force ?r ?w1] =>
          destruct (IH force r w1) as (w' & Hrun & Hb & Hq)
      end.
      cbn [backend requests success failed skipped] in Hrun, Hb, Hq.
      destruct (pin_rm_run rest e1) as [rs e2] eqn:Hrest.
      cbn [fst snd] in *.
      exists w'. rewrite Hrun, Hb, Hq.
      cbn [succeeded rejected flat_map fst snd map].
      rewrite <- !app_assoc. auto.
Qed.

Lemma pin_rm_run_cids (cids : list string) :
  forall e : E, map fst (fst (pin_rm_run cids e)) = cids.
Proof.
  induction cids as [| cid rest IH]; intros e; cbn; [reflexivity |].
  destruct (pin_rm cid e) as [r e1].
  specialize (IH e1). destruct (pin_rm_run rest e1) as [rs e2].
  cbn in *. now rewrite IH.
Qed.

Lemma outcomes_partition (outs : list (string * Res unit)) :
  Permutation (succeeded outs ++ map fst (rejected outs)) (map fst outs).
Proof.
  induction outs as [| [cid [[] | m]] rest IH]; cbn.
  - constructor.
  - now constructor.
  - apply Permutation_sym, Permutation_cons_app, Permutation_sym, IH.
Qed.

Lemma unpinFiles_run (cids : list string) (force : bool) (w : World E) :
  exists w',
    unpinFiles cids force w
    = (Ok {| success := succeeded (fst (pin_rm_run cids (backend w)));
             failed := rejected (fst (pin_rm_run cids (backend w)));
             skipped := [] |}, w')
    /\ backend w' = snd (pin_rm_run cids (backend w))
    /\ requests w' = requests w ++ map PinRm cids.
Proof.
  unfold unpinFiles.
  destruct (unpin_loop_run cids force {| success := []; failed := []; skipped := [] |} w)
    as (w' & Hrun & Hb & Hq).
  exists w'. auto.
Qed.

(** C4.  [unpinFiles] never throws.  For every list of cids, either value
    of [force] and every behaviour of the daemon it returns a result
    object; one [pin/rm] request is issued per requested cid, in order,
    whatever happened to the earlier ones; [success] holds exactly the
    cids whose request succeeded and [failed] exactly the others, each
    with the error message of its request; so every requested cid is
    filed once (as often as it was requested) in [success] or [failed].
    The route answers 200 with that object whenever [cids] is a
    non-empty array. *)
Theorem unpinFiles_files_every_cid_once (cids : list string) (force : bool) (w : World E) :
  exists results w',
    unpinFiles cids force w = (Ok results, w')
    /\ success results = succeeded (fst (pin_rm_run cids (backend w)))
    /\ failed results = rejected (fst (pin_rm_run cids (backend w)))
    /\ requests w' = requests w ++ map PinRm cids
    /\ Permutation (success results ++ map fst (failed results)) cids
    /\ (forall cid,
           (count_occ string_dec (success results) cid
            + count_occ string_dec (map fst (failed results)) cid
            = count_occ string_dec cids cid)%nat)
    /\ (cids <> [] ->
        exists resp w'',
          Routes.post_unpin (Routes.mkUnpinBody (Some cids) (Some force)) w = (Ok resp, w'')
          /\ Routes.UnpinResponse.code resp = 200
          /\ Routes.UnpinResponse.data resp = Some results).
Proof.
  destruct (unpinFiles_run cids force w) as (w' & Hrun & Hb & Hq).
  eexists; exists w'. split; [exact Hrun |].
  cbn [success failed].
  assert (HP : Permutation
                 (succeeded (fst (pin_rm_run cids (backend w)))
                  ++ map fst (rejected (fst (pin_rm_run cids (backend w))))) cids).
  { rewrite <- (pin_rm_run_cids cids (backend w)) at 3. apply outcomes_partition. }
  repeat split; auto.
  - intros cid. rewrite <- count_occ_app. now apply Permutation_count_occ.
  - intros Hne. destruct cids as [| c cs]; [congruence |].
    unfold Routes.post_unpin, try_catch.
    cbn [Routes.force Routes.cids].
    unfold bind at 1. unfold logger_info at 1, logger at 1.
    match goal with
    | |- context [bind (unpinFiles ?l ?f) ?k ?w1] =>
        destruct (unpinFiles_run l f w1) as (w1' & Hrun1 & _ & _);
        unfold bind; rewrite Hrun1
    end.
    cbn [backend]. unfold ret. eexists; eexists. split; [reflexivity |].
    split; reflexivity.
Qed.

(** C3, as the code has it.  [unpinFiles] applies no age check: with
    [force = false] it files every cid exactly as with [force = true],
    leaves the daemon in the same state and issues the same [pin/rm]
    requests, one per requested cid (the flag only adds a log line).  The
    24-hour rule lives in the dashboard alone: a row's unpin controls are
    enabled exactly when the listed timestamp is at least 24 hours
    (86 400 000 ms) old, and "select all" picks only such rows. *)
Theorem unpinFiles_applies_no_age_check (cids : list string) (w : World E) :
  fst (unpinFiles cids false w) = fst (unpinFiles cids true w)
  /\ backend (snd (unpinFiles cids false w)) = backend (snd (unpinFiles cids true w))
  /\ requests (snd (unpinFiles cids false w)) = requests w ++ map PinRm cids
  /\ (forall now file,
         StorageManager.canUnpin (StorageManager.displayRow now file)
         = (86400000 <=? now - PinEntry.timestamp file))
  /\ (forall now files,
         StorageManager.handleSelectAll (StorageManager.displayPinnedFiles now files)
         = map PinEntry.cid
               (filter (fun file => 86400000 <=? now - PinEntry.timestamp file) files)).
Proof.
  destruct (unpinFiles_run cids false w) as (w0 & Hrun0 & Hb0 & Hq0).
  destruct (unpinFiles_run cids true w) as (w1 & Hrun1 & Hb1 & Hq1).
  rewrite Hrun0, Hrun1. cbn [fst snd].
  assert (Hgate : forall now file,
             StorageManager.canUnpin (StorageManager.displayRow now file)
             = (86400000 <=? now - PinEntry.timestamp file)).
  { intros now file. unfold StorageManager.displayRow, StorageManager.calculateAge.
    cbn [StorageManager.canUnpin StorageManager.hours].
    change (1000 * 60 * 60) with 3600000.
    generalize (now - PinEntry.timestamp file). intros d.
    destruct (Z.leb_spec 86400000 d) as [H | H].
    - apply Z.leb_le. apply Z.div_le_lower_bound; lia.
    - apply Z.leb_gt. apply Z.div_lt_upper_bound; lia. }
  repeat split; auto.
  - congruence.
  - intros now files. unfold StorageManager.handleSelectAll, StorageManager.displayPinnedFiles.
    induction files as [| f fs IH]; [reflexivity |].
    cbn [map filter]. rewrite Hgate.
    destruct (86400000 <=? now - PinEntry.timestamp f); cbn [map]; rewrite IH; reflexivity.
Qed.

Lemma getStorageStats_succeeds (w : World E) r e1 d e2 :
  repo_stat (backend w) = (Ok r, e1) ->
  df e1 = (Ok d, e2) ->
  getStorageStats w
  = (Ok {| disk := d;
           ipfs := {| ipfs_repoSize := RepoSize r;
                      ipfs_storageMax := StorageMax r;
                      ipfs_numObjects := NumObjects r |};
           status := healthStatus (percentUsed d);
           stats_timestamp := clock e2 |},
     mkWorld e2 (requests w ++ [RepoStat; Df]) (logged w)).
Proof.
  intros Hr Hd.
  unfold getStorageStats, try_catch, bind at 1, Promise_all2.
  rewrite getRepoStats_run, Hr. cbv beta iota.
  rewrite getDiskUsage_run. cbn [backend requests logged].
  rewrite Hd. unfold bind, Date_now, ret. cbn [backend].
  rewrite <- app_assoc. destruct d; reflexivity.
Qed.

Lemma getStorageStats_fails (w : World E) :
  (exists m e1, repo_stat (backend w) = (Throw m, e1))
  \/ (exists m e2, df (snd (repo_stat (backend w))) = (Throw m, e2)) ->
  exists m w', getStorageStats w = (Throw m, w').
Proof.
  intros H.
  unfold getStorageStats, try_catch, bind at 1, Promise_all2.
  rewrite getRepoStats_run.
  destruct (repo_stat (backend w)) as [[r | m] e1] eqn:Hr;
    cbv beta iota; rewrite getDiskUsage_run; cbn [backend requests logged snd] in *.
  - destruct H as [(m & e & Hm) | (m & e2 & Hm)]; [discriminate |].
    rewrite Hm. cbn. unfold throw. eauto.
  - destruct (df e1) as [[d | m'] e2]; cbn; unfold throw; eauto.
Qed.

(** A [percentUsed] that [parseInt] could not read compares false with
    both thresholds. *)
Remark healthStatus_NaN : healthStatus Js.NaN = {| level := "healthy"; color := "green" |}.
Proof. reflexivity. Qed.

Lemma healthStatus_tiers (p : Z) :
  healthStatus (Js.Int p)
  = if p <=? 60 then {| level := "healthy"; color := "green" |}
    else if p <=? 80 then {| level := "warning"; color := "yellow" |}
    else {| level := "critical"; color := "red" |}.
Proof.
  unfold healthStatus, Js.gt.
  destruct (Z.ltb_spec 80 p), (Z.ltb_spec 60 p), (Z.leb_spec p 60), (Z.leb_spec p 80);
    try lia; reflexivity.
Qed.

(** C5.  Whenever both collaborators answer, [getStorageStats] returns a
    result whose [status] depends on the disk's [percentUsed] alone:
    at most 60 is healthy/green, 61 to 80 is warning/yellow, above 80 is
    critical/red. *)
Theorem getStorageStats_health_tiers (w : World E) r e1 d e2 (p : Z) :
  repo_stat (backend w) = (Ok r, e1) ->
  df e1 = (Ok d, e2) ->
  percentUsed d = Js.Int p ->
  exists stats w',
    getStorageStats w = (Ok stats, w')
    /\ percentUsed (disk stats) = Js.Int p
    /\ (p <= 60 -> status stats = {| level := "healthy"; color := "green" |})
    /\ (61 <= p <= 80 -> status stats = {| level := "warning"; color := "yellow" |})
    /\ (80 < p -> status stats = {| level := "critical"; color := "red" |}).
Proof.
  intros Hr Hd Hp.
  eexists; eexists. split; [exact (getStorageStats_succeeds w r e1 d e2 Hr Hd) |].
  cbn [disk status]. rewrite Hp, healthStatus_tiers.
  repeat split.
  - intros H. destruct (Z.leb_spec p 60); [reflexivity | lia].
  - intros H. destruct (Z.leb_spec p 60); [lia |].
    destruct (Z.leb_spec p 80); [reflexivity | lia].
  - intros H. destruct (Z.leb_spec p 60); [lia |].
    destruct (Z.leb_spec p 80); [lia | reflexivity].
Qed.

(** C10.  Whenever the statistics are available, [GET /health] answers
    200 with [healthy] true exactly when the classified level is not
    [critical]: true for every [percentUsed] up to 80 (the healthy and
    the warning tiers), false above 80. *)
Theorem health_endpoint_healthy_iff_not_critical (w : World E) r e1 d e2 (p : Z) :
  repo_stat (backend w) = (Ok r, e1) ->
  df e1 = (Ok d, e2) ->
  percentUsed d = Js.Int p ->
  exists resp w',
    Routes.get_health w = (Ok resp, w')
    /\ Routes.HealthResponse.code resp = 200
    /\ Routes.HealthResponse.status resp = Some (healthStatus (Js.Int p))
    /\ Routes.HealthResponse.healthy resp
       = negb (level (healthStatus (Js.Int p)) =? "critical")%string
    /\ (Routes.HealthResponse.healthy resp = true <-> p <= 80).
Proof.
  intros Hr Hd Hp.
  unfold Routes.get_health, try_catch, bind.
  rewrite (getStorageStats_succeeds w r e1 d e2 Hr Hd).
  unfold ret. cbn [status]. rewrite Hp.
  eexists; eexists. split; [reflexivity |].
  cbn [Routes.HealthResponse.code Routes.HealthResponse.status Routes.HealthResponse.healthy].
  repeat split.
  - rewrite healthStatus_tiers.
    destruct (Z.leb_spec p 60); [lia |].
    destruct (Z.leb_spec p 80); [lia |]. cbn. discriminate.
  - rewrite healthStatus_tiers. intros H.
    destruct (Z.leb_spec p 60); [reflexivity |].
    destruct (Z.leb_spec p 80); [reflexivity | lia].
Qed.

(** When the statistics cannot be obtained the endpoint answers 500 with
    [healthy = false]. *)
Lemma health_endpoint_on_failure (w : World E) m w1 :
  getStorageStats w = (Throw m, w1) ->
  Routes.get_health w = (Ok (Routes.HealthResponse.mk 500 false false None (Some m)), w1).
Proof.
  intros H. unfold Routes.get_health, try_catch, bind. rewrite H. reflexivity.
Qed.

(** The loop of [listPinnedFiles]: it never throws, and it appends one
    entry per pin, in order, built from that pin's [object/stat] outcome. *)
Lemma listPinned_loop_run (entries : list (string * PinData)) :
  forall (pinList : list PinEntry.t) (w : World E),
  exists added w',
    listPinned_loop entries pinList w = (Ok (pinList ++ added), w')
    /\ Forall2 listed_as (combine entries (object_stat_run entries (backend w))) added
    /\ requests w' = requests w ++ map (fun k => ObjectStat (fst k)) entries
    /\ logged w' = logged w.
Proof.
  induction entries as [| [cid pinData] rest IH]; intros pinList w.
  - exists [], w. cbn. rewrite !app_nil_r. auto.
  - cbn [listPinned_loop object_stat_run combine map fst].
    unfold bind at 1, try_catch at 1, bind at 1, call at 1.
    destruct (object_stat cid (backend w)) as [[d | m] e1] eqn:Hstat;
      unfold bind at 1, Date_now at 1, ret at 1; cbn [backend snd];
      match goal with
      | |- context [listPinned_loop rest ?l ?w1] =>
          destruct (IH l w1) as (added & w' & Hrun & Hall & Hq & Hl)
      end;
      cbn [backend requests logged] in Hall, Hq, Hl;
      eexists (_ :: added), w'; rewrite Hrun, Hq, Hl, <- !app_assoc;
      (split; [reflexivity |]); (split; [| auto]);
      constructor; auto; cbn; auto.
Qed.

Lemma object_stat_run_shape (entries : list (string * PinData)) :
  forall (e : E) ko,
    In ko (combine entries (object_stat_run entries e)) ->
    In (fst ko) entries /\ exists e', snd ko = object_stat (fst (fst ko)) e'.
Proof.
  induction entries as [| [cid pinData] rest IH]; intros e ko; cbn; [tauto |].
  intros [<- | Hin].
  - cbn. eauto.
  - destruct (IH _ _ Hin) as [H1 H2]. auto.
Qed.

Lemma object_stat_run_keys (entries : list (string * PinData)) :
  forall e : E, map fst (combine entries (object_stat_run entries e)) = entries.
Proof.
  induction entries as [| [cid pinData] rest IH]; intros e; cbn; [reflexivity |].
  now rewrite IH.
Qed.

Lemma Forall2_nth_l {A B : Type} (R : A -> B -> Prop) (l1 : list A) (l2 : list B) :
  Forall2 R l1 l2 ->
  forall i a, nth_error l1 i = Some a -> exists b, nth_error l2 i = Some b /\ R a b.
Proof.
  induction 1 as [| a' b' l1' l2' Hab _ IH]; intros [| i] a; cbn; try discriminate.
  - intros [= <-]. eauto.
  - apply IH.
Qed.

Lemma listed_cids (kos : list ((string * PinData) * (Res ObjectStatData * E)))
      (listing : list PinEntry.t) :
  Forall2 listed_as kos listing ->
  map PinEntry.cid listing = map (fun ko => fst (fst ko)) kos.
Proof.
  induction 1 as [| [k o] p kos' l' Hp _ IH]; cbn; [reflexivity |].
  destruct Hp as (-> & _). now rewrite IH.
Qed.

(** C7.  Whenever [pin/ls] answers, [listPinnedFiles] returns a listing:
    it has exactly one entry per pin reported by the daemon, in the
    daemon's order, each built from the outcome of that pin's
    [object/stat] request - the reported size (0 when the answer has
    none) if the request succeeded, and 0 if it failed.  In particular the
    pin at any position whose [object/stat] request failed is listed at
    that position with size 0; no failure of [object/stat] drops an entry
    or aborts the listing. *)
Theorem listPinnedFiles_keeps_every_pin (w : World E) keys e1 :
  pin_ls (backend w) = (Ok (mkPinLsData keys), e1) ->
  let entries := match keys with Some k => k | None => [] end in
  exists listing w',
    listPinnedFiles w = (Ok listing, w')
    /\ map PinEntry.cid listing = map fst entries
    /\ Forall2 listed_as (combine entries (object_stat_run entries e1)) listing
    /\ (forall i k o,
           nth_error (combine entries (object_stat_run entries e1)) i = Some (k, o) ->
           exists p,
             nth_error listing i = Some p
             /\ PinEntry.cid p = fst k
             /\ ((exists m, fst o = Throw m) -> PinEntry.size p = 0)).
Proof.
  intros Hls entries.
  unfold listPinnedFiles, try_catch, bind at 1, call at 1. rewrite Hls.
  cbn [Keys]. fold entries.
  destruct (listPinned_loop_run entries []
              (mkWorld e1 (requests w ++ [PinLs]) (logged w)))
    as (listing & w' & Hrun & Hall & _).
  cbn [backend app] in Hrun, Hall.
  exists listing, w'. rewrite Hrun.
  split; [reflexivity |]. split; [| split; [exact Hall |]].
  - rewrite (listed_cids _ _ Hall).
    rewrite <- (map_map fst fst), object_stat_run_keys. reflexivity.
  - intros i k o Hi.
    destruct (Forall2_nth_l _ _ _ Hall i (k, o) Hi) as (p & Hp & Hc & _ & Hs & _).
    exists p. split; [exact Hp |]. split; [exact Hc |].
    intros [m Hm]. rewrite Hs, Hm. reflexivity.
Qed.

(** Only a failure of [pin/ls] itself makes the listing fail. *)
Lemma listPinnedFiles_fails_with_pin_ls (w : World E) m e1 :
  pin_ls (backend w) = (Throw m, e1) ->
  fst (listPinnedFiles w) = Throw "Failed to list pinned files".
Proof.
  intros H. unfold listPinnedFiles, try_catch, bind at 1, call at 1. rewrite H.
  reflexivity.
Qed.

(** C8, as the code has it.  [runGarbageCollection] snapshots the repo
    size, runs the collection and snapshots again; when the three
    requests succeed it returns [spaceFreed] equal to the first size
    minus the second - whatever its sign, nothing is clamped - together
    with both sizes and the clock difference between the end of the
    second snapshot and the start.  It fails exactly when one of the
    three requests fails, with the message of that failure. *)
Theorem runGarbageCollection_reports_raw_difference (w : World E) :
  match repo_stat (backend w) with
  | (Throw _, _) =>
      exists w', runGarbageCollection w
      = (Throw ("Failed to run garbage collection: "
                ++ "Failed to get IPFS repository statistics")%string, w')
  | (Ok before, e1) =>
      match repo_gc e1 with
      | (Throw m, _) =>
          exists w', runGarbageCollection w
          = (Throw ("Failed to run garbage collection: " ++ m)%string, w')
      | (Ok _, e2) =>
          match repo_stat e2 with
          | (Throw _, _) =>
              exists w', runGarbageCollection w
              = (Throw ("Failed to run garbage collection: "
                        ++ "Failed to get IPFS repository statistics")%string, w')
          | (Ok after, e3) =>
              exists result w',
                runGarbageCollection w = (Ok result, w')
                /\ gc_success result = true
                /\ spaceFreed result = RepoSize before - RepoSize after
                /\ beforeSize result = RepoSize before
                /\ afterSize result = RepoSize after
                /\ duration result = clock e3 - clock (backend w)
                /\ backend w' = e3
                /\ requests w' = requests w ++ [RepoStat; RepoGc; RepoStat]
          end
      end
  end.
Proof.
  destruct w as [e rq lg]. cbn [backend requests].
  destruct (repo_stat e) as [[before | m0] e1] eqn:H1.
  2:{ eexists. run_service. rewrite H1. reflexivity. }
  destruct (repo_gc e1) as [[[] | m1] e2] eqn:H2.
  2:{ eexists. run_service. rewrite H1. run_service. rewrite H2. reflexivity. }
  destruct (repo_stat e2) as [[after | m2] e3] eqn:H3.
  2:{ eexists. run_service. rewrite H1. run_service. rewrite H2. run_service.
      rewrite H3. reflexivity. }
  eexists; eexists. split.
  { run_service. rewrite H1. run_service. rewrite H2. run_service. rewrite H3.
    run_service. reflexivity. }
  cbn [gc_success spaceFreed beforeSize afterSize duration backend requests repoSize].
  rewrite <- !app_assoc. repeat split; reflexivity.
Qed.

End Runs.

End StorageFacts.

(** ** The expiry of upload sessions *)

Module TempUploadsFacts.

Import TempUploads Samples.

Lemma no_ttl_never_expires (index : IndexSpec) (now : Z) (doc : TempUpload) :
  expireAfterSeconds index = None -> ttl_expired index now doc = false.
Proof. unfold ttl_expired. now intros ->. Qed.

Lemma expires_ttl_rule (now : Z) (doc : TempUpload) :
  ttl_expired expires_ttl now doc
  = match expires doc with Some date => date <? now | None => false end.
Proof.
  unfold ttl_expired, expires_ttl, date_field. cbn.
  destruct (expires doc) as [date |]; [| reflexivity].
  now rewrite Z.add_0_r.
Qed.

(** C9, as the code has it.  After the set-up script has run (on a
    collection none of whose previous indexes carried a TTL), the expiry
    mechanism deletes a session exactly when its [expires] date is in the
    past; the [finalized] flag plays no part: the same session with the
    flag set the other way is treated alike, and a session whose [expires]
    is absent or not yet past is never deleted. *)
Theorem ttl_expiry_ignores_finalized
        (existingIndexes : list IndexSpec) (now : Z) (doc : TempUpload) :
  Forall (fun index => expireAfterSeconds index = None) existingIndexes ->
  auto_deleted (setupTempUploadsCollection existingIndexes) now doc
  = match expires doc with Some date => date <? now | None => false end
  /\ (forall flag,
         auto_deleted (setupTempUploadsCollection existingIndexes) now
                      (mkTempUpload (upload_id doc) (owner doc) (tus_completed doc) flag
                                    (video_id doc) (expires doc))
         = auto_deleted (setupTempUploadsCollection existingIndexes) now doc).
Proof.
  intros Hold.
  assert (Hrule : forall d,
             auto_deleted (setupTempUploadsCollection existingIndexes) now d
             = match expires d with Some date => date <? now | None => false end).
  { intros d. unfold auto_deleted, setupTempUploadsCollection.
    rewrite existsb_app.
    replace (existsb (fun index => ttl_expired index now d)
                     (filter (fun index => (name index =? "_id_")%string) existingIndexes))
      with false.
    - cbn [existsb orb].
      rewrite expires_ttl_rule.
      rewrite !no_ttl_never_expires by reflexivity.
      cbn [orb]. now rewrite orb_false_r.
    - symmetry. apply not_true_is_false. intros H.
      apply existsb_exists in H. destruct H as (index & Hin & Hexp).
      apply filter_In in Hin. destruct Hin as [Hin _].
      rewrite Forall_forall in Hold.
      rewrite (no_ttl_never_expires index now d (Hold index Hin)) in Hexp.
      discriminate. }
  split; [apply Hrule |].
  intros flag. now rewrite !Hrule.
Qed.

Lemma ttl_expiry_ignores_finalized_witness :
  auto_deleted (setupTempUploadsCollection [id_index]) 1767229200000 finalized_session = true.
Proof.
  destruct (ttl_expiry_ignores_finalized [id_index] 1767229200000 finalized_session) as [H _].
  - repeat constructor.
  - rewrite H. reflexivity.
Defined.

(** Against C9 as stated: a finalized session whose [expires] date passed
    an hour ago is due for deletion, and a pass of the TTL monitor removes
    it. *)
Lemma finalized_session_is_reaped :
  finalized finalized_session = true
  /\ auto_deleted (setupTempUploadsCollection [id_index]) 1767229200000 finalized_session = true
  /\ ttl_pass (setupTempUploadsCollection [id_index]) 1767229200000 [finalized_session] = [].
Proof. repeat split. Qed.

End TempUploadsFacts.

(** ** The service on a concrete node *)

Module NodeFacts.

Import Storage Yardstick StorageFacts.

(** Against C3 as stated: a pin listed a few milliseconds ago (age 0 hours,
    unpin disabled in the dashboard) is removed by [unpinFiles] with
    [force = false], also through the route with [force] omitted. *)
Lemma young_pin_unpinned_without_force :
  let w0 := Node.world (Node.sample 40) in
  let w1 := snd (listPinnedFiles w0) in
  let w2 := snd (unpinFiles ["QmVideoA"] false w1) in
  fst (listPinnedFiles w0)
  = Ok [PinEntry.mk "QmVideoA" "recursive" 4096 1700000000010;
        PinEntry.mk "QmVideoB" "recursive" 0 1700000000015]
  /\ clock (backend w1) - 1700000000010 < MIN_AGE_HOURS * Node.hour
  /\ StorageManager.hours (StorageManager.calculateAge (clock (backend w1)) 1700000000010) = 0
  /\ map fst (Node.pins (backend w1)) = ["QmVideoA"; "QmVideoB"]
  /\ fst (unpinFiles ["QmVideoA"] false w1)
     = Ok {| success := ["QmVideoA"]; failed := []; skipped := [] |}
  /\ map fst (Node.pins (backend w2)) = ["QmVideoB"]
  /\ map fst (Node.pins (backend (snd (Routes.post_unpin
                                        (Routes.mkUnpinBody (Some ["QmVideoA"]) None) w1))))
     = ["QmVideoB"].
Proof. vm_compute. repeat split. Qed.

(** C6 on the code: two listings of the same two pins, 25 hours apart.  The
    claim asks for the same timestamps in both; the second listing instead
    reports timestamps 25 hours later than the first, so the age shown by
    the dashboard right after it is 0 hours and unpinning stays disabled,
    whereas the first listing's timestamps would by then have enabled it. *)
Lemma listing_restamps_on_every_call :
  let w0 := Node.world (Node.sample 40) in
  let w1 := snd (listPinnedFiles w0) in
  let later := mkWorld (Node.elapse (25 * Node.hour) (backend w1)) (requests w1) (logged w1) in
  let w2 := snd (listPinnedFiles later) in
  fst (listPinnedFiles w0)
  = Ok [PinEntry.mk "QmVideoA" "recursive" 4096 1700000000010;
        PinEntry.mk "QmVideoB" "recursive" 0 1700000000015]
  /\ fst (listPinnedFiles later)
     = Ok [PinEntry.mk "QmVideoA" "recursive" 4096 1700090000025;
           PinEntry.mk "QmVideoB" "recursive" 0 1700090000030]
  /\ clock (backend w2) - 1700000000010 = 25 * Node.hour + 20
  /\ StorageManager.displayPinnedFiles (clock (backend w2))
       [PinEntry.mk "QmVideoA" "recursive" 4096 1700090000025;
        PinEntry.mk "QmVideoB" "recursive" 0 1700090000030]
     = [StorageManager.mkRow "QmVideoA" false "age-new" "< 1 hour";
        StorageManager.mkRow "QmVideoB" false "age-new" "< 1 hour"]
  /\ StorageManager.displayPinnedFiles (clock (backend w2))
       [PinEntry.mk "QmVideoA" "recursive" 4096 1700000000010;
        PinEntry.mk "QmVideoB" "recursive" 0 1700000000015]
     = [StorageManager.mkRow "QmVideoA" true "age-recent" "1 days";
        StorageManager.mkRow "QmVideoB" true "age-recent" "1 days"].
Proof. vm_compute. repeat split. Qed.

(** Against C8 as stated: the repository grew by 50 bytes during the
    collection, and the result reports [spaceFreed = -50], not a clamped
    value. *)
Lemma negative_spaceFreed_is_reported :
  fst (runGarbageCollection (Node.world Node.busy))
  = Ok {| gc_success := true; spaceFreed := -50; beforeSize := 1000000;
          afterSize := 1000050; duration := 15; gc_timestamp := 1700000000015 |}
  /\ ~ (0 <= -50).
Proof. split; [vm_compute; reflexivity | lia]. Qed.

(** With the API unreachable the first snapshot fails, and so does the
    operation, before any collection was requested. *)
Lemma gc_fails_when_snapshot_fails :
  fst (runGarbageCollection (Node.world (Node.offline 40)))
  = Throw "Failed to run garbage collection: Failed to get IPFS repository statistics"
  /\ requests (snd (runGarbageCollection (Node.world (Node.offline 40)))) = [RepoStat].
Proof. vm_compute. split; reflexivity. Qed.

Lemma unpinFiles_files_every_cid_once_witness :
  exists results w',
    unpinFiles ["QmVideoA"; "QmGone"] false (Node.world (Node.sample 40)) = (Ok results, w')
    /\ Permutation (success results ++ map fst (failed results)) ["QmVideoA"; "QmGone"]
    /\ exists resp w'',
         Routes.post_unpin (Routes.mkUnpinBody (Some ["QmVideoA"; "QmGone"]) (Some false))
                           (Node.world (Node.sample 40)) = (Ok resp, w'')
         /\ Routes.UnpinResponse.code resp = 200.
Proof.
  destruct (unpinFiles_files_every_cid_once ["QmVideoA"; "QmGone"] false
              (Node.world (Node.sample 40)))
    as (results & w' & Hrun & _ & _ & _ & Hperm & _ & Hroute).
  exists results, w'. split; [exact Hrun |]. split; [exact Hperm |].
  destruct Hroute as (resp & w'' & Hresp & Hcode & _); [discriminate |].
  exists resp, w''. split; [exact Hresp | exact Hcode].
Defined.

Lemma getStorageStats_health_tiers_witness :
  exists stats w',
    getStorageStats (Node.world (Node.sample 60)) = (Ok stats, w')
    /\ status stats = {| level := "healthy"; color := "green" |}.
Proof.
  edestruct (getStorageStats_health_tiers (Node.world (Node.sample 60)))
    with (p := 60) as (stats & w' & Hrun & _ & Hlow & _ & _).
  - reflexivity.
  - reflexivity.
  - reflexivity.
  - exists stats, w'. split; [exact Hrun | apply Hlow; lia].
Defined.

Lemma health_endpoint_healthy_iff_not_critical_witness :
  exists resp w',
    Routes.get_health (Node.world (Node.sample 80)) = (Ok resp, w')
    /\ Routes.HealthResponse.healthy resp = true.
Proof.
  edestruct (health_endpoint_healthy_iff_not_critical (Node.world (Node.sample 80)))
    with (p := 80) as (resp & w' & Hrun & _ & _ & _ & Hiff).
  - reflexivity.
  - reflexivity.
  - reflexivity.
  - exists resp, w'. split; [exact Hrun | apply Hiff; lia].
Defined.

Lemma listPinnedFiles_keeps_every_pin_witness :
  exists listing w',
    listPinnedFiles (Node.world (Node.sample 40)) = (Ok listing, w')
    /\ map PinEntry.cid listing = ["QmVideoA"; "QmVideoB"]
    /\ exists p, nth_error listing 1 = Some p /\ PinEntry.size p = 0.
Proof.
  edestruct (listPinnedFiles_keeps_every_pin (Node.world (Node.sample 40)))
    as (listing & w' & Hrun & Hcids & _ & Hnth).
  - reflexivity.
  - exists listing, w'. split; [exact Hrun |]. split; [exact Hcids |].
    edestruct (Hnth 1%nat) as (p & Hp & _ & Hsize).
    + reflexivity.
    + exists p. split; [exact Hp |]. apply Hsize. eexists. reflexivity.
Defined.

(** The tier boundaries, run on the node. *)
Example tier_at_60 :
  fst (getStorageStats (Node.world (Node.sample 60)))
  = Ok (mkStorageStats
          (mkDiskUsage (Js.Int 500000000) (Js.Int 300000000) (Js.Int 200000000) (Js.Int 60))
          (mkIpfsStats 1000000 10000000000 1)
          {| level := "healthy"; color := "green" |} 1700000000010).
Proof. reflexivity. Qed.

Example tier_at_61 :
  fst (Routes.get_health (Node.world (Node.sample 61)))
  = Ok (Routes.HealthResponse.mk 200 true true
          (Some {| level := "warning"; color := "yellow" |}) None).
Proof. reflexivity. Qed.

Example tier_at_80 :
  fst (Routes.get_health (Node.world (Node.sample 80)))
  = Ok (Routes.HealthResponse.mk 200 true true
          (Some {| level := "warning"; color := "yellow" |}) None).
Proof. reflexivity. Qed.

Example tier_at_81 :
  fst (Routes.get_health (Node.world (Node.sample 81)))
  = Ok (Routes.HealthResponse.mk 200 true false
          (Some {| level := "critical"; color := "red" |}) None).
Proof. reflexivity. Qed.

End NodeFacts.

(** ** The pollers as a whole *)

Module PollerFacts.

Local Open Scope list_scope.





Lemma pollVideoStatus_loop_length (n : nat) :
  forall attempts fetch,
    (List.length (fst (StatusGuide.pollVideoStatus_loop n attempts fetch)) <= n)%nat.
Proof.
  induction n as [| n IH]; intros attempts fetch; cbn [StatusGuide.pollVideoStatus_loop].
  - cbn. lia.
  - destruct (fetch (S attempts)) as [data |].
    + destruct (ThreeSpeakUploader.is_published (StatusData.video data)); [cbn; lia |].
      destruct (ThreeSpeakUploader.is_failed (StatusData.video data) (StatusData.job data));
        [cbn; lia |].
      specialize (IH (S attempts) fetch).
      destruct (StatusGuide.pollVideoStatus_loop n (S attempts) fetch). cbn in *. lia.
    + specialize (IH (S attempts) fetch). lia.
Qed.

Lemma pollVideoStatus_loop_ext (n : nat) :
  forall attempts fetch fetch',
    (forall k, (attempts < k <= attempts + n)%nat -> fetch k = fetch' k) ->
    StatusGuide.pollVideoStatus_loop n attempts fetch
    = StatusGuide.pollVideoStatus_loop n attempts fetch'.
Proof.
  induction n as [| n IH]; intros attempts fetch fetch' Heq; [reflexivity |].
  cbn [StatusGuide.pollVideoStatus_loop].
  rewrite <- (Heq (S attempts)) by lia.
  rewrite (IH (S attempts) fetch fetch') by (intros k Hk; apply Heq; lia).
  reflexivity.
Qed.

(** X3.  [pollVideoStatus] is bounded by [maxAttempts]: it calls [onUpdate]
    at most 120 times, and its outcome depends on the answers to requests
    1 to 120 only. *)
Theorem pollVideoStatus_is_bounded (fetch fetch' : nat -> option StatusData.t) :
  (List.length (fst (StatusGuide.pollVideoStatus fetch)) <= 120)%nat
  /\ ((forall k, (1 <= k <= 120)%nat -> fetch k = fetch' k) ->
      StatusGuide.pollVideoStatus fetch = StatusGuide.pollVideoStatus fetch').
Proof.
  split.
  - apply (pollVideoStatus_loop_length StatusGuide.maxAttempts).
  - intros Heq. apply pollVideoStatus_loop_ext.
    intros k Hk. apply Heq. unfold StatusGuide.maxAttempts in Hk. lia.
Qed.

Lemma pollVideoStatus_is_bounded_witness :
  StatusGuide.pollVideoStatus (fun k => if (k <=? 120)%nat then None else Some Samples.encoded_not_published)
  = StatusGuide.pollVideoStatus (fun _ => None).
Proof.
  apply (pollVideoStatus_is_bounded
           (fun k => if (k <=? 120)%nat then None else Some Samples.encoded_not_published)
           (fun _ => None)).
  intros k Hk. destruct (Nat.leb_spec k 120); [reflexivity | lia].
Defined.

Lemma pollVideoStatus_loop_sound (n : nat) :
  forall attempts fetch,
    let updates := fst (StatusGuide.pollVideoStatus_loop n attempts fetch) in
    Forall (fun u => StatusGuide.isComplete u = false /\ StatusGuide.isFailed u = false)
           (removelast updates)
    /\ match snd (StatusGuide.pollVideoStatus_loop n attempts fetch) with
       | StatusGuide.Finished success v j =>
           ThreeSpeakUploader.is_published v = success
           /\ success || ThreeSpeakUploader.is_failed v j = true
           /\ last updates (StatusGuide.mk_update (StatusData.mk v j))
              = StatusGuide.mk_update (StatusData.mk v j)
           /\ updates <> []
       | StatusGuide.TimedOut =>
           Forall (fun u => StatusGuide.isComplete u = false /\ StatusGuide.isFailed u = false)
                  updates
       end.
Proof.
  induction n as [| n IH]; intros attempts fetch; cbn [StatusGuide.pollVideoStatus_loop].
  - cbn. split; constructor.
  - destruct (fetch (S attempts)) as [data |]; [| apply IH].
    destruct (ThreeSpeakUploader.is_published (StatusData.video data)) eqn:Hp.
    { destruct data as [v j]. cbn in *. split; [constructor |].
      split; [exact Hp |]. split; [reflexivity |]. split; [reflexivity | discriminate]. }
    destruct (ThreeSpeakUploader.is_failed (StatusData.video data) (StatusData.job data)) eqn:Hf.
    { destruct data as [v j]. cbn in *. split; [constructor |].
      split; [exact Hp |]. split; [exact Hf |]. split; [reflexivity | discriminate]. }
    specialize (IH (S attempts) fetch).
    destruct (StatusGuide.pollVideoStatus_loop n (S attempts) fetch) as [us r].
    cbn [fst snd] in *. destruct IH as [IHf IHr].
    assert (Hu : StatusGuide.isComplete (StatusGuide.mk_update data) = false
                 /\ StatusGuide.isFailed (StatusGuide.mk_update data) = false)
      by (split; assumption).
    split.
    + destruct us as [| u us']; [cbn; constructor |].
      change (removelast (StatusGuide.mk_update data :: u :: us'))
        with (StatusGuide.mk_update data :: removelast (u :: us')).
      constructor; assumption.
    + destruct r as [success v j |].
      * destruct IHr as (H1 & H2 & H3 & H4). repeat split; try assumption; try discriminate.
        destruct us as [| u us']; [congruence | exact H3].
      * constructor; assumption.
Qed.

(** X4.  What [pollVideoStatus] resolves to is backed by the last update it
    delivered: [success: true] only for a video that is [published] or
    [publish_manual], [success: false] with a video only for one that is not
    published and has failed, and in both cases that video and job are those
    of the last update; every earlier update - and, on a timeout, every
    update - is non-terminal. *)
Theorem pollVideoStatus_result_is_sound (fetch : nat -> option StatusData.t) :
  let updates := fst (StatusGuide.pollVideoStatus fetch) in
  Forall (fun u => StatusGuide.isComplete u = false /\ StatusGuide.isFailed u = false)
         (removelast updates)
  /\ match snd (StatusGuide.pollVideoStatus fetch) with
     | StatusGuide.Finished success v j =>
         ThreeSpeakUploader.is_published v = success
         /\ success || ThreeSpeakUploader.is_failed v j = true
         /\ last updates (StatusGuide.mk_update (StatusData.mk v j))
            = StatusGuide.mk_update (StatusData.mk v j)
         /\ updates <> []
     | StatusGuide.TimedOut =>
         Forall (fun u => StatusGuide.isComplete u = false /\ StatusGuide.isFailed u = false)
                updates
     end.
Proof. apply pollVideoStatus_loop_sound. Qed.

Lemma pollVideoStatus_loop_reaches (k : nat) :
  forall n attempts fetch data,
    (k < n)%nat ->
    fetch (S (attempts + k)) = Some data ->
    ThreeSpeakUploader.is_published (StatusData.video data) = true ->
    (forall i, (i < k)%nat ->
               match fetch (S (attempts + i)) with
               | None => True
               | Some d => ThreeSpeakUploader.is_published (StatusData.video d) = false
                           /\ ThreeSpeakUploader.is_failed (StatusData.video d) (StatusData.job d)
                              = false
               end) ->
    snd (StatusGuide.pollVideoStatus_loop n attempts fetch)
    = StatusGuide.Finished true (StatusData.video data) (StatusData.job data).
Proof.
  induction k as [| k IH]; intros n attempts fetch data Hn Hk Hp Hbefore;
    (destruct n as [| n]; [lia |]); cbn [StatusGuide.pollVideoStatus_loop].
  - rewrite Nat.add_0_r in Hk. rewrite Hk, Hp. reflexivity.
  - assert (Hrest : snd (StatusGuide.pollVideoStatus_loop n (S attempts) fetch)
                    = StatusGuide.Finished true (StatusData.video data) (StatusData.job data)).
    { apply (IH n (S attempts) fetch data); [lia | | exact Hp |].
      - rewrite <- Hk. f_equal. lia.
      - intros i Hi. specialize (Hbefore (S i) ltac:(lia)).
        replace (S attempts + i)%nat with (attempts + S i)%nat by lia. exact Hbefore. }
    specialize (Hbefore 0%nat ltac:(lia)). rewrite Nat.add_0_r in Hbefore.
    destruct (fetch (S attempts)) as [d |]; [| exact Hrest].
    destruct Hbefore as [-> ->].
    destruct (StatusGuide.pollVideoStatus_loop n (S attempts) fetch). exact Hrest.
Qed.

(** X5.  Request errors do not stop [pollVideoStatus]: if the [k]-th
    request (k at most 120) reports a published video and every earlier
    request either failed or reported a video that was neither published
    nor failed, the poll resolves to [success: true] with that video. *)
Theorem pollVideoStatus_survives_errors
        (fetch : nat -> option StatusData.t) (k : nat) (data : StatusData.t) :
  (1 <= k <= 120)%nat ->
  fetch k = Some data ->
  ThreeSpeakUploader.is_published (StatusData.video data) = true ->
  (forall i, (1 <= i < k)%nat ->
             match fetch i with
             | None => True
             | Some d => ThreeSpeakUploader.is_published (StatusData.video d) = false
                         /\ ThreeSpeakUploader.is_failed (StatusData.video d) (StatusData.job d)
                            = false
             end) ->
  snd (StatusGuide.pollVideoStatus fetch)
  = StatusGuide.Finished true (StatusData.video data) (StatusData.job data).
Proof.
  intros Hk Hfetch Hp Hbefore.
  destruct k as [| k]; [lia |].
  apply (pollVideoStatus_loop_reaches k StatusGuide.maxAttempts 0 fetch data).
  - unfold StatusGuide.maxAttempts. lia.
  - exact Hfetch.
  - exact Hp.
  - intros i Hi. apply Hbefore. cbn. lia.
Qed.

Lemma pollVideoStatus_survives_errors_witness :
  snd (StatusGuide.pollVideoStatus
         (fun k => match k with
                   | 2%nat => Some Samples.encoded_not_published
                   | 4%nat => Some Samples.published_with_failed_job
                   | _ => None
                   end))
  = StatusGuide.Finished true (Video.mk "published" "alice" "abcd1234")
                         (Some Samples.stale_failed_job).
Proof.
  apply (pollVideoStatus_survives_errors _ 4 Samples.published_with_failed_job).
  - lia.
  - reflexivity.
  - reflexivity.
  - intros i Hi.
    destruct i as [| [| [| [| i]]]]; try lia; cbn; auto.
Defined.

(** X6.  The label agrees with the flags.  In both variants of
    [getStatusLabel] a video that has failed and is not published gets the
    failure label, whatever its job reports.  In the stand-alone variant the
    label even determines the flags: it is the published label exactly when
    [isComplete], and the failure label exactly when [isFailed] without
    [isComplete]. *)
Theorem label_agrees_with_flags (data : StatusData.t) :
  let u := ThreeSpeakUploader.mk_update data in
  let g := StatusGuide.mk_update data in
  (ThreeSpeakUploader.isFailed u && negb (ThreeSpeakUploader.isComplete u) = true ->
   ThreeSpeakUploader.statusLabel u = "❌ Encoding Failed")
  /\ (StatusGuide.label g = "🎉 Published to Hive!" <-> StatusGuide.isComplete g = true)
  /\ (StatusGuide.label g = "❌ Encoding Failed"
      <-> StatusGuide.isFailed g && negb (StatusGuide.isComplete g) = true).
Proof.
  destruct data as [v j]. cbv zeta.
  unfold ThreeSpeakUploader.mk_update, StatusGuide.mk_update.
  cbn [ThreeSpeakUploader.isFailed ThreeSpeakUploader.isComplete ThreeSpeakUploader.statusLabel
       StatusGuide.isFailed StatusGuide.isComplete StatusGuide.label
       StatusData.video StatusData.job].
  unfold ThreeSpeakUploader.getStatusLabel, StatusGuide.getStatusLabel. cbv zeta.
  change ((Video.status v =? "published")%string || (Video.status v =? "publish_manual")%string)
    with (ThreeSpeakUploader.is_published v).
  change ((Video.status v =? "failed")%string || (Video.status v =? "encoding_failed")%string
          || job_status_is j "failed")
    with (ThreeSpeakUploader.is_failed v j).
  destruct (ThreeSpeakUploader.is_published v), (ThreeSpeakUploader.is_failed v j); cbn [andb negb].
  - repeat split; intros; try reflexivity; discriminate.
  - repeat split; intros; try reflexivity; discriminate.
  - repeat split; intros; try reflexivity; discriminate.
  - split; [discriminate |].
    destruct (Video.status v =? "uploaded")%string.
    { repeat split; intros H; discriminate H. }
    destruct j as [job |].
    2:{ repeat split; intros H; cbn in H; discriminate H. }
    destruct (Job.status job =? "queued")%string.
    { repeat split; intros H; discriminate H. }
    destruct (Job.status job =? "running")%string.
    { repeat split; intros H; cbn in H; discriminate H. }
    destruct (Job.status job =? "complete")%string.
    { repeat split; intros H; discriminate H. }
    repeat split; intros H; cbn in H; discriminate H.
Qed.

Lemma label_agrees_with_flags_witness :
  ThreeSpeakUploader.statusLabel
    (ThreeSpeakUploader.mk_update
       (StatusData.mk (Video.mk "encoding_ipfs" "alice" "abcd1234")
                      (Some Samples.stale_failed_job)))
  = "❌ Encoding Failed".
Proof.
  apply (label_agrees_with_flags
           (StatusData.mk (Video.mk "encoding_ipfs" "alice" "abcd1234")
                          (Some Samples.stale_failed_job))).
  reflexivity.
Defined.





End PollerFacts.

(** ** The storage service and its routes: composition and failure *)

Module ServiceFacts.

Import Storage Yardstick StorageFacts.
Local Open Scope list_scope.

Section Composition.

Context {E : Type} {BE : Backend E}.

Lemma bind_run {A B : Type} (m : M (E := E) A) (k : A -> M B) (w : World E) :
  bind m k w = match m w with
               | (Ok a, w') => k a w'
               | (Throw e, w') => (Throw e, w')
               end.
Proof. reflexivity. Qed.

Lemma unpin_loop_app (a b : list string) (force : bool) :
  forall (results : UnpinResults) (w : World E),
    unpin_loop (a ++ b) force results w
    = match unpin_loop a force results w with
      | (Ok r1, w1) => unpin_loop b force r1 w1
      | (Throw m, w1) => (Throw m, w1)
      end.
Proof.
  induction a as [| cid rest IH]; intros results w; [reflexivity |].
  cbn [app unpin_loop]. rewrite !bind_run.
  match goal with |- context [try_catch ?m ?h w] => destruct (try_catch m h w) as [[r1 | m1] w1] end.
  - apply IH.
  - reflexivity.
Qed.

Lemma unpin_loop_world (cids : list string) (force : bool) :
  forall (results results' : UnpinResults) (w : World E),
    snd (unpin_loop cids force results w) = snd (unpin_loop cids force results' w).
Proof.
  induction cids as [| cid rest IH]; intros results results' w; [reflexivity |].
  cbn [unpin_loop]. destruct w as [e rq lg].
  destruct force; run_unpin; destruct (pin_rm cid e) as [[[] | m] e1]; apply IH.
Qed.

(** X8.  Unpinning in one batch or in two consecutive batches is the same:
    [unpinFiles(a.concat(b))] leaves the daemon, the request trace and the
    log exactly as [unpinFiles(a)] followed by [unpinFiles(b)] does, and its
    result is the two results joined. *)
Theorem unpinFiles_in_two_batches (a b : list string) (force : bool) (w : World E) :
  exists r1 w1 r2 w2,
    unpinFiles a force w = (Ok r1, w1)
    /\ unpinFiles b force w1 = (Ok r2, w2)
    /\ unpinFiles (a ++ b) force w
       = (Ok {| success := success r1 ++ success r2;
                failed := failed r1 ++ failed r2;
                skipped := [] |}, w2).
Proof.
  destruct (unpinFiles_run a force w) as (w1 & Ha & _).
  destruct (unpinFiles_run b force w1) as (w2 & Hb & _).
  eexists; exists w1; eexists; exists w2.
  split; [exact Ha |]. split; [exact Hb |].
  unfold unpinFiles in *. rewrite unpin_loop_app, Ha.
  match goal with
  | |- unpin_loop b force ?r w1 = _ =>
      destruct (unpin_loop_run b force r w1) as (w' & Hrun & _);
      pose proof (unpin_loop_world b force r {| success := []; failed := []; skipped := [] |} w1)
        as Hw
  end.
  rewrite Hrun, Hb in Hw. cbn [snd] in Hw. subst w'.
  rewrite Hrun. reflexivity.
Qed.

Lemma object_stat_run_length (entries : list (string * PinData)) :
  forall e : E, List.length (object_stat_run entries e) = List.length entries.
Proof.
  induction entries as [| [cid pinData] rest IH]; intros e; cbn; [reflexivity |].
  now rewrite IH.
Qed.

Lemma listPinnedFiles_total (w : World E) keys e1 :
  pin_ls (backend w) = (Ok (mkPinLsData keys), e1) ->
  exists listing w',
    listPinnedFiles w = (Ok listing, w')
    /\ List.length listing = List.length (match keys with Some k => k | None => [] end)
    /\ requests w'
       = requests w
         ++ PinLs :: map (fun k => ObjectStat (fst k))
                         (match keys with Some k => k | None => [] end)
    /\ logged w' = logged w.
Proof.
  intros Hls.
  unfold listPinnedFiles, try_catch, bind at 1, call at 1. rewrite Hls. cbn [Keys].
  match goal with
  | |- context [listPinned_loop ?entries [] ?w1] =>
      destruct (listPinned_loop_run entries [] w1) as (listing & w' & Hrun & Hall & Hq & Hl)
  end.
  rewrite Hrun. exists listing, w'. split; [reflexivity |].
  cbn [backend requests logged] in Hall, Hq, Hl.
  split; [| split; [rewrite Hq, <- app_assoc; reflexivity | exact Hl]].
  apply Forall2_length in Hall. rewrite <- Hall.
  rewrite length_combine, object_stat_run_length. apply Nat.min_id.
Qed.

Lemma unpin_loop_log (cids : list string) :
  forall (force : bool) (results : UnpinResults) (w : World E),
  exists lines,
    logged (snd (unpin_loop cids force results w)) = logged w ++ lines
    /\ map (fun l => (text l, detail l))
           (filter (fun l => (log_level l =? "error")%string) lines)
       = map (fun f => (("Failed to unpin " ++ fst f ++ ":")%string, snd f))
             (rejected (fst (pin_rm_run cids (backend w)))).
Proof.
  induction cids as [| cid rest IH]; intros force results w.
  - exists []. cbn. now rewrite app_nil_r.
  - cbn [unpin_loop pin_rm_run]. destruct w as [e rq lg]. cbn [backend logged].
    destruct force;
      cbv beta iota zeta delta
          [try_catch bind logger_info logger_error logger call ret throw negb];
      cbn [backend requests logged];
      destruct (pin_rm cid e) as [[[] | m] e1];
      cbn [backend requests logged];
      match goal with
      | |- context [unpin_loop rest ?f ?r ?w1] =>
          destruct (IH f r w1) as (lines & Hl & He)
      end;
      rewrite Hl; cbn [backend logged] in He |- *;
      destruct (pin_rm_run rest e1) as [outs e2]; cbn [fst snd] in *;
      eexists; (split; [rewrite <- ?app_assoc; reflexivity |]);
      unfold rejected in *; cbn [flat_map fst snd app filter map log_level String.eqb];
      cbn; rewrite He; reflexivity.
Qed.

(** X9.  Every failed unpin is on record.  The error lines that
    [unpinFiles] adds to the log are, in order, exactly one per entry of
    [failed], each naming the cid and carrying the same error message that
    the result reports. *)
Theorem unpinFiles_logs_every_failure (cids : list string) (force : bool) (w : World E) :
  exists results w' lines,
    unpinFiles cids force w = (Ok results, w')
    /\ logged w' = logged w ++ lines
    /\ map (fun l => (text l, detail l))
           (filter (fun l => (log_level l =? "error")%string) lines)
       = map (fun f => (("Failed to unpin " ++ fst f ++ ":")%string, snd f)) (failed results).
Proof.
  destruct (unpinFiles_run cids force w) as (w' & Hrun & _).
  destruct (unpin_loop_log cids force {| success := []; failed := []; skipped := [] |} w)
    as (lines & Hl & He).
  fold (unpinFiles cids force) in Hl. rewrite Hrun in Hl. cbn [snd] in Hl.
  eexists; exists w', lines. split; [exact Hrun |]. split; [exact Hl | exact He].
Qed.

(** X10.  A successful listing is silent and asks once per pin: after
    [pin/ls] it issues exactly one [object/stat] request per reported pin,
    in order, and logs nothing - failures of [object/stat] leave no trace in
    the log. *)
Theorem listPinnedFiles_requests_and_log (w : World E) keys e1 :
  pin_ls (backend w) = (Ok (mkPinLsData keys), e1) ->
  let entries := match keys with Some k => k | None => [] end in
  requests (snd (listPinnedFiles w))
  = requests w ++ PinLs :: map (fun k => ObjectStat (fst k)) entries
  /\ logged (snd (listPinnedFiles w)) = logged w.
Proof.
  intros Hls entries.
  destruct (listPinnedFiles_total w keys e1 Hls) as (listing & w' & Hrun & _ & Hq & Hl).
  rewrite Hrun. cbn [snd]. auto.
Qed.

(** X11.  [GET /pinned] never throws.  When [pin/ls] answers it responds 200
    with the listing and [count] equal to the number of pins the daemon
    reported; when [pin/ls] fails it responds 500 with the fixed message
    "Failed to list pinned files", after a single request, the daemon's own
    message going to the log only. *)
Theorem get_pinned_response (w : World E) :
  match pin_ls (backend w) with
  | (Ok d, _) =>
      exists listing w',
        Routes.get_pinned w
        = (Ok (Routes.PinnedResponse.mk 200 true
                 (Some (Z.of_nat (List.length
                                    (match Keys d with Some k => k | None => [] end))))
                 (Some listing) None), w')
        /\ fst (listPinnedFiles w) = Ok listing
  | (Throw m, e1) =>
      Routes.get_pinned w
      = (Ok (Routes.PinnedResponse.mk 500 false None None (Some "Failed to list pinned files")),
         mkWorld e1 (requests w ++ [PinLs])
                 (logged w
                  ++ [mkLogLine "error" "Error listing pinned files:" m;
                      mkLogLine "error" "Error listing pinned files:"
                                "Failed to list pinned files"]))
  end.
Proof.
  destruct (pin_ls (backend w)) as [[d | m] e1] eqn:Hls.
  - destruct d as [keys].
    destruct (listPinnedFiles_total w keys e1 Hls) as (listing & w' & Hrun & Hlen & _).
    exists listing, w'. unfold Routes.get_pinned, try_catch, bind. rewrite Hrun.
    unfold ret. cbn [Keys fst]. rewrite Hlen. auto.
  - unfold Routes.get_pinned, listPinnedFiles.
    unfold try_catch at 1 2. unfold bind at 1 2. unfold call at 1. rewrite Hls.
    cbv beta iota. unfold bind, logger_error, logger, throw, ret.
    cbn [backend requests logged]. rewrite <- app_assoc. reflexivity.
Qed.

(** X12.  [runGarbageCollection] stops at the first failing request: when
    the snapshot before the collection fails, [repo/gc] is never requested;
    when [repo/gc] fails, no second snapshot is taken; otherwise exactly the
    three requests are made, in order. *)
Theorem runGarbageCollection_stops_at_first_failure (w : World E) :
  match repo_stat (backend w) with
  | (Throw _, e1) =>
      backend (snd (runGarbageCollection w)) = e1
      /\ requests (snd (runGarbageCollection w)) = requests w ++ [RepoStat]
  | (Ok _, e1) =>
      match repo_gc e1 with
      | (Throw _, e2) =>
          backend (snd (runGarbageCollection w)) = e2
          /\ requests (snd (runGarbageCollection w)) = requests w ++ [RepoStat; RepoGc]
      | (Ok _, e2) =>
          backend (snd (runGarbageCollection w)) = snd (repo_stat e2)
          /\ requests (snd (runGarbageCollection w))
             = requests w ++ [RepoStat; RepoGc; RepoStat]
      end
  end.
Proof.
  destruct w as [e rq lg]. cbn [backend requests].
  destruct (repo_stat e) as [[before | m0] e1] eqn:H1.
  2:{ run_service. rewrite H1. cbn. auto. }
  destruct (repo_gc e1) as [[[] | m1] e2] eqn:H2.
  2:{ run_service. rewrite H1. run_service. rewrite H2. cbn.
      rewrite <- app_assoc. auto. }
  run_service. rewrite H1. run_service. rewrite H2. run_service.
  destruct (repo_stat e2) as [[after | m2] e3]; cbn; rewrite <- !app_assoc; auto.
Qed.

(** X13.  [GET /unpinned] always answers 200 with an empty list, [count] 0
    and an estimate of 0 bytes, whether or not the daemon is reachable: it
    makes one [repo/stat] request whose only effect on the answer is the
    note. *)
Theorem get_unpinned_is_a_placeholder (w : World E) :
  exists w',
    Routes.get_unpinned w
    = (Ok (Routes.UnpinnedResponse.mk 200 true (Some 0) (Some [])
             (Some {| estimated := 0;
                      note := match fst (repo_stat (backend w)) with
                              | Ok _ => "Run garbage collection to see actual space freed"
                              | Throw _ => "Unable to estimate"
                              end |})
             None), w')
    /\ requests w' = requests w ++ [RepoStat].
Proof.
  destruct w as [e rq lg]. cbn [backend requests].
  destruct (repo_stat e) as [[stat | m] e1] eqn:H1;
    eexists; run_routes; rewrite H1; cbn; split; reflexivity.
Qed.

Lemma getStorageStats_repo_fails (w : World E) m e1 d e2 :
  repo_stat (backend w) = (Throw m, e1) ->
  df e1 = (Ok d, e2) ->
  getStorageStats w
  = (Throw "Failed to get IPFS repository statistics",
     mkWorld e2 (requests w ++ [RepoStat; Df])
             (logged w
              ++ [mkLogLine "error" "Error getting IPFS repo stats:" m;
                  mkLogLine "error" "Error getting storage stats:"
                            "Failed to get IPFS repository statistics"])).
Proof.
  intros Hr Hd.
  unfold getStorageStats, try_catch, bind at 1, Promise_all2.
  rewrite getRepoStats_run, Hr. cbv beta iota.
  rewrite getDiskUsage_run. cbn [backend requests logged].
  rewrite Hd. unfold bind, logger_error, logger, throw. cbn [backend requests logged].
  rewrite <- !app_assoc. reflexivity.
Qed.

Lemma getStorageStats_disk_fails (w : World E) r m e1 e2 :
  repo_stat (backend w) = (Ok r, e1) ->
  df e1 = (Throw m, e2) ->
  getStorageStats w
  = (Throw "Failed to get disk usage statistics",
     mkWorld e2 (requests w ++ [RepoStat; Df])
             (logged w
              ++ [mkLogLine "error" "Error getting disk usage:" m;
                  mkLogLine "error" "Error getting storage stats:"
                            "Failed to get disk usage statistics"])).
Proof.
  intros Hr Hd.
  unfold getStorageStats, try_catch, bind at 1, Promise_all2.
  rewrite getRepoStats_run, Hr. cbv beta iota.
  rewrite getDiskUsage_run. cbn [backend requests logged].
  rewrite Hd. unfold bind, logger_error, logger, throw. cbn [backend requests logged].
  rewrite <- !app_assoc. reflexivity.
Qed.

Lemma getStorageStats_both_fail (w : World E) m e1 m' e2 :
  repo_stat (backend w) = (Throw m, e1) ->
  df e1 = (Throw m', e2) ->
  exists msg lg,
    getStorageStats w = (Throw msg, mkWorld e2 (requests w ++ [RepoStat; Df]) lg).
Proof.
  intros Hr Hd.
  unfold getStorageStats, try_catch, bind at 1, Promise_all2.
  rewrite getRepoStats_run, Hr. cbv beta iota.
  rewrite getDiskUsage_run. cbn [backend requests logged].
  rewrite Hd. unfold bind, logger_error, logger, throw. cbn [backend requests logged].
  rewrite <- !app_assoc. eauto.
Qed.

Lemma get_stats_run (w : World E) :
  Routes.get_stats w
  = match getStorageStats w with
    | (Ok stats, w1) => (Ok (Routes.StatsResponse.mk 200 true (Some stats) None), w1)
    | (Throw m, w1) =>
        (Ok (Routes.StatsResponse.mk 500 false None (Some m)),
         mkWorld (backend w1) (requests w1)
                 (logged w1 ++ [mkLogLine "error" "Error getting storage stats:" m]))
    end.
Proof.
  unfold Routes.get_stats, try_catch, bind, ret, logger_error, logger.
  destruct (getStorageStats w) as [[stats | m] w1]; reflexivity.
Qed.

Lemma get_health_run (w : World E) :
  Routes.get_health w
  = match getStorageStats w with
    | (Ok stats, w1) =>
        (Ok (Routes.HealthResponse.mk 200 true
               (negb (level (status stats) =? "critical")%string)
               (Some (status stats)) None), w1)
    | (Throw m, w1) => (Ok (Routes.HealthResponse.mk 500 false false None (Some m)), w1)
    end.
Proof.
  unfold Routes.get_health, try_catch, bind, ret.
  destruct (getStorageStats w) as [[stats | m] w1]; reflexivity.
Qed.

(** X14.  [GET /stats] and [GET /health] never pass an upstream message to
    the client.  Both collaborators are always asked.  When both answer the
    routes respond 200; when only the daemon fails they respond 500 with
    "Failed to get IPFS repository statistics", when only [df] fails with
    "Failed to get disk usage statistics" ([healthy] being [false]); the
    collaborator's own message is kept in the log. *)
Theorem stats_routes_mask_upstream_errors (w : World E) :
  requests (snd (Routes.get_stats w)) = requests w ++ [RepoStat; Df]
  /\ requests (snd (Routes.get_health w)) = requests w ++ [RepoStat; Df]
  /\ match repo_stat (backend w) with
     | (Ok r, e1) =>
         match df e1 with
         | (Ok d, _) =>
             exists stats,
               fst (Routes.get_stats w) = Ok (Routes.StatsResponse.mk 200 true (Some stats) None)
               /\ disk stats = d
               /\ fst (Routes.get_health w)
                  = Ok (Routes.HealthResponse.mk 200 true
                          (negb (level (status stats) =? "critical")%string)
                          (Some (status stats)) None)
         | (Throw m, _) =>
             fst (Routes.get_stats w)
             = Ok (Routes.StatsResponse.mk 500 false None
                     (Some "Failed to get disk usage statistics"))
             /\ fst (Routes.get_health w)
                = Ok (Routes.HealthResponse.mk 500 false false None
                        (Some "Failed to get disk usage statistics"))
             /\ In (mkLogLine "error" "Error getting disk usage:" m)
                   (logged (snd (Routes.get_stats w)))
         end
     | (Throw m, e1) =>
         match df e1 with
         | (Ok _, _) =>
             fst (Routes.get_stats w)
             = Ok (Routes.StatsResponse.mk 500 false None
                     (Some "Failed to get IPFS repository statistics"))
             /\ fst (Routes.get_health w)
                = Ok (Routes.HealthResponse.mk 500 false false None
                        (Some "Failed to get IPFS repository statistics"))
             /\ In (mkLogLine "error" "Error getting IPFS repo stats:" m)
                   (logged (snd (Routes.get_stats w)))
         | (Throw _, _) => True
         end
     end.
Proof.
  rewrite !get_stats_run, !get_health_run.
  destruct (repo_stat (backend w)) as [[r | m] e1] eqn:Hr;
    destruct (df e1) as [[d | m'] e2] eqn:Hd.
  - rewrite (getStorageStats_succeeds w r e1 d e2 Hr Hd). cbn.
    repeat split. eexists. repeat split.
  - rewrite (getStorageStats_disk_fails w r m' e1 e2 Hr Hd). cbn.
    repeat split. apply in_or_app. left. apply in_or_app. right. cbn. auto.
  - rewrite (getStorageStats_repo_fails w m e1 d e2 Hr Hd). cbn.
    repeat split. apply in_or_app. left. apply in_or_app. right. cbn. auto.
  - destruct (getStorageStats_both_fail w m e1 m' e2 Hr Hd) as (msg & lg & ->). cbn. auto.
Qed.




(** X16.  [POST /gc] never throws.  It answers 200 with the service's
    result when the two snapshots and the collection succeed, and 500
    otherwise; the error names the operation and, for a failed [repo/gc],
    carries the daemon's message, while a failed snapshot is reported with
    the fixed snapshot message. *)
Theorem post_gc_response (w : World E) :
  match repo_stat (backend w) with
  | (Throw _, _) =>
      fst (Routes.post_gc w)
      = Ok (Routes.GcResponse.mk 500 false None
              (Some "Failed to run garbage collection: Failed to get IPFS repository statistics"))
  | (Ok before, e1) =>
      match repo_gc e1 with
      | (Throw m, _) =>
          fst (Routes.post_gc w)
          = Ok (Routes.GcResponse.mk 500 false None
                  (Some ("Failed to run garbage collection: " ++ m)%string))
      | (Ok _, e2) =>
          match repo_stat e2 with
          | (Throw _, _) =>
              fst (Routes.post_gc w)
              = Ok (Routes.GcResponse.mk 500 false None
                      (Some "Failed to run garbage collection: Failed to get IPFS repository statistics"))
          | (Ok after, e3) =>
              fst (Routes.post_gc w)
              = Ok (Routes.GcResponse.mk 200 true
                      (Some {| gc_success := true;
                               spaceFreed := RepoSize before - RepoSize after;
                               beforeSize := RepoSize before;
                               afterSize := RepoSize after;
                               duration := clock e3 - clock (backend w);
                               gc_timestamp := clock e3 |})
                      None)
          end
      end
  end.
Proof.
  destruct w as [e rq lg]. cbn [backend].
  destruct (repo_stat e) as [[before | m0] e1] eqn:H1.
  2:{ run_routes. rewrite H1. reflexivity. }
  destruct (repo_gc e1) as [[[] | m1] e2] eqn:H2.
  2:{ run_routes. rewrite H1. run_routes. rewrite H2. reflexivity. }
  destruct (repo_stat e2) as [[after | m2] e3] eqn:H3.
  2:{ run_routes. rewrite H1. run_routes. rewrite H2. run_routes. rewrite H3. reflexivity. }
  run_routes. rewrite H1. run_routes. rewrite H2. run_routes. rewrite H3. reflexivity.
Qed.

End Composition.

End ServiceFacts.

(** ** The admin authentication *)

Module AuthFacts.

Import Storage.
Local Open Scope list_scope.

Lemma split_fields_clean (sep : ascii) (s : string) :
  forall field, In field (Js.split sep s) -> Js.includes sep field = false.
Proof.
  induction s as [| c rest IH]; cbn [Js.split]; intros field.
  - intros [<- | []]. reflexivity.
  - destruct (Ascii.eqb c sep) eqn:Hc.
    + intros [<- | Hin]; [reflexivity | auto].
    + destruct (Js.split sep rest) as [| f fs] eqn:Hs.
      * intros [<- | []]. cbn. now rewrite Hc.
      * intros [<- | Hin].
        -- cbn. rewrite Hc. apply IH. now left.
        -- apply IH. now right.
Qed.

Lemma split_without_separator (sep : ascii) (s : string) :
  Js.includes sep s = false -> Js.split sep s = [s].
Proof.
  induction s as [| c rest IH]; cbn; [reflexivity |].
  intros H. apply orb_false_elim in H. destruct H as [Hc Hrest].
  rewrite Hc, (IH Hrest). reflexivity.
Qed.

Lemma split_at_first_separator (sep : ascii) (a b : string) :
  Js.includes sep a = false ->
  Js.split sep (a ++ String sep b) = a :: Js.split sep b.
Proof.
  induction a as [| c rest IH]; cbn.
  - intros _. now rewrite Ascii.eqb_refl.
  - intros H. apply orb_false_elim in H. destruct H as [Hc Hrest].
    rewrite Hc, (IH Hrest). reflexivity.
Qed.

Lemma prefix_app (p s : string) :
  String.prefix p s = true -> exists rest, s = (p ++ rest)%string.
Proof.
  revert s. induction p as [| c p IH]; intros s.
  - intros _. now exists s.
  - destruct s as [| c' s]; cbn; [discriminate |].
    destruct (ascii_dec c c') as [<- |]; [| discriminate].
    intros H. destruct (IH s H) as [rest ->]. now exists rest.
Qed.

Lemma prefix_of_app (p rest : string) : String.prefix p (p ++ rest) = true.
Proof.
  induction p as [| c p IH]; cbn.
  - destruct rest; reflexivity.
  - destruct (ascii_dec c c); [exact IH | congruence].
Qed.

Section Middleware.

Context {E : Type} {BE : Backend E}.
Variable base64_decode : string -> Res string.

Local Abbreviation auth := (Routes.requireStorageAuth (E := E) base64_decode).

Lemma auth_without_basic (env : Routes.Env) (authorization : option string) (w : World E) :
  match authorization with
  | Some h => String.prefix "Basic " h = false
  | None => True
  end ->
  auth env authorization w
  = (Ok (Routes.Reject (Routes.mkRejection 401 true "Authentication required")), w).
Proof.
  destruct authorization as [[| c h] |]; try reflexivity.
  unfold Routes.requireStorageAuth. intros ->. reflexivity.
Qed.

Lemma auth_with_basic (env : Routes.Env) (h : string) (w : World E) :
  String.prefix "Basic " h = true ->
  auth env (Some h) w
  = match base64_decode (nth 1 (Js.split " " h) "") with
    | Throw m =>
        (Ok (Routes.Reject (Routes.mkRejection 401 true "Invalid authentication format")),
         mkWorld (backend w) (requests w) (logged w ++ [mkLogLine "error" "Auth error:" m]))
    | Ok credentials =>
        match Routes.IPFS_STORAGE_ADMIN_PASSWORD env with
        | None | Some EmptyString =>
            (Ok (Routes.Reject
                   (Routes.mkRejection 500 false "Storage authentication not configured")),
             mkWorld (backend w) (requests w)
                     (logged w
                      ++ [mkLogLine "error" "IPFS_STORAGE_ADMIN_PASSWORD not configured" ""]))
        | Some validPassword =>
            if (nth 0 (Js.split ":" credentials) ""
                =? Js.or_string (Routes.IPFS_STORAGE_ADMIN_USERNAME env) "admin")%string
               && match nth_error (Js.split ":" credentials) 1 with
                  | Some pw => (pw =? validPassword)%string
                  | None => false
                  end
            then (Ok Routes.Next, w)
            else (Ok (Routes.Reject (Routes.mkRejection 401 true "Invalid credentials")), w)
        end
    end.
Proof.
  intros Hp. destruct h as [| c h]; [discriminate |].
  unfold Routes.requireStorageAuth. rewrite Hp. cbn [negb].
  unfold try_catch, bind, ret, logger_error, logger.
  destruct (base64_decode (nth 1 (Js.split " " (String c h)) "")) as [credentials | m];
    [| reflexivity].
  destruct (Routes.IPFS_STORAGE_ADMIN_PASSWORD env) as [[| a pw] |]; try reflexivity.
  match goal with |- context [if ?b then _ else _] => destruct b end; reflexivity.
Qed.

(** X17.  What [next()] presupposes.  The middleware lets a request through
    only if the header starts with "Basic ", a non-empty password is
    configured, and the decoded credentials split at ":" into the configured
    user name (or "admin") and exactly the configured password.  Since a
    field of that split never contains ":", a configured password that
    contains ":" lets nobody in. *)
Theorem auth_next_presupposes (env : Routes.Env) (authorization : option string) (w : World E) :
  fst (auth env authorization w) = Ok Routes.Next ->
  exists h validPassword credentials,
    authorization = Some h
    /\ String.prefix "Basic " h = true
    /\ Routes.IPFS_STORAGE_ADMIN_PASSWORD env = Some validPassword
    /\ validPassword <> ""%string
    /\ Js.includes ":" validPassword = false
    /\ base64_decode (nth 1 (Js.split " " h) "") = Ok credentials
    /\ nth 0 (Js.split ":" credentials) ""
       = Js.or_string (Routes.IPFS_STORAGE_ADMIN_USERNAME env) "admin"
    /\ nth_error (Js.split ":" credentials) 1 = Some validPassword.
Proof.
  intros Hnext.
  destruct authorization as [h |].
  2:{ rewrite auth_without_basic in Hnext by exact I. discriminate. }
  destruct (String.prefix "Basic " h) eqn:Hp.
  2:{ rewrite auth_without_basic in Hnext by exact Hp. discriminate. }
  rewrite (auth_with_basic env h w Hp) in Hnext.
  destruct (base64_decode (nth 1 (Js.split " " h) "")) as [credentials | m] eqn:Hd;
    [| discriminate].
  destruct (Routes.IPFS_STORAGE_ADMIN_PASSWORD env) as [[| a pw] |] eqn:Hpw; try discriminate.
  destruct (nth 0 (Js.split ":" credentials) ""
            =? Js.or_string (Routes.IPFS_STORAGE_ADMIN_USERNAME env) "admin")%string eqn:Hu;
    [| discriminate].
  destruct (nth_error (Js.split ":" credentials) 1) as [field |] eqn:Hf; [| discriminate].
  destruct (field =? String a pw)%string eqn:Hfield; [| discriminate].
  apply String.eqb_eq in Hu, Hfield. subst field.
  exists h, (String a pw), credentials.
  repeat split; auto; try discriminate.
  apply (split_fields_clean ":" credentials). eapply nth_error_In. exact Hf.
Qed.

(** X18.  An unconfigured password is never a bypass.  When
    [IPFS_STORAGE_ADMIN_PASSWORD] is unset or empty, no request is let
    through; a request whose Basic credentials decode is answered 500
    "Storage authentication not configured" (and the omission is logged),
    whatever those credentials are. *)
Theorem auth_unconfigured_password (env : Routes.Env) (authorization : option string)
        (w : World E) :
  Js.or_string (Routes.IPFS_STORAGE_ADMIN_PASSWORD env) "" = ""%string ->
  (exists r, fst (auth env authorization w) = Ok (Routes.Reject r))
  /\ (forall h credentials,
         authorization = Some h ->
         String.prefix "Basic " h = true ->
         base64_decode (nth 1 (Js.split " " h) "") = Ok credentials ->
         auth env authorization w
         = (Ok (Routes.Reject
                  (Routes.mkRejection 500 false "Storage authentication not configured")),
            mkWorld (backend w) (requests w)
                    (logged w
                     ++ [mkLogLine "error" "IPFS_STORAGE_ADMIN_PASSWORD not configured" ""]))).
Proof.
  intros Hunset.
  assert (Hpw : Routes.IPFS_STORAGE_ADMIN_PASSWORD env = None
                \/ Routes.IPFS_STORAGE_ADMIN_PASSWORD env = Some ""%string).
  { destruct (Routes.IPFS_STORAGE_ADMIN_PASSWORD env) as [[| a pw] |]; auto.
    cbn in Hunset. discriminate. }
  split.
  - destruct authorization as [h |].
    2:{ rewrite auth_without_basic by exact I. eexists; reflexivity. }
    destruct (String.prefix "Basic " h) eqn:Hp.
    2:{ rewrite auth_without_basic by exact Hp. eexists; reflexivity. }
    rewrite (auth_with_basic env h w Hp).
    destruct (base64_decode (nth 1 (Js.split " " h) "")); [| eexists; reflexivity].
    destruct Hpw as [-> | ->]; eexists; reflexivity.
  - intros h credentials -> Hp Hd.
    rewrite (auth_with_basic env h w Hp), Hd.
    destruct Hpw as [-> | ->]; reflexivity.
Qed.

Lemma auth_leaves_daemon_alone (env : Routes.Env) (authorization : option string)
      (w : World E) :
  exists outcome lg,
    auth env authorization w = (Ok outcome, mkWorld (backend w) (requests w) lg)
    /\ (outcome = Routes.Next -> lg = logged w).
Proof.
  destruct authorization as [h |].
  2:{ rewrite auth_without_basic by exact I. destruct w. eexists; eexists.
      split; [reflexivity | discriminate]. }
  destruct (String.prefix "Basic " h) eqn:Hp.
  2:{ rewrite auth_without_basic by exact Hp. destruct w. eexists; eexists.
      split; [reflexivity | discriminate]. }
  rewrite (auth_with_basic env h w Hp).
  destruct (base64_decode (nth 1 (Js.split " " h) "")) as [credentials | m].
  2:{ eexists; eexists. split; [reflexivity | discriminate]. }
  destruct (Routes.IPFS_STORAGE_ADMIN_PASSWORD env) as [[| c pw] |].
  1,3: eexists; eexists; split; [reflexivity | discriminate].
  match goal with |- context [if ?b then _ else _] => destruct b end;
    destruct w; eexists; eexists; (split; [reflexivity |]); try discriminate; reflexivity.
Qed.

Lemma guarded_run {R : Type} (env : Routes.Env) (authorization : option string)
      (handler : M (E := E) R) (w : World E) :
  Routes.guarded base64_decode env authorization handler w
  = match auth env authorization w with
    | (Ok Routes.Next, w1) =>
        (match fst (handler w1) with
         | Ok x => Ok (inr x)
         | Throw m => Throw m
         end, snd (handler w1))
    | (Ok (Routes.Reject r), w1) => (Ok (inl r), w1)
    | (Throw m, w1) => (Throw m, w1)
    end.
Proof.
  unfold Routes.guarded, bind at 1.
  destruct (auth env authorization w) as [[[| r] | m] w1]; try reflexivity.
  unfold bind, ret. destruct (handler w1) as [[x | m] w']; reflexivity.
Qed.

(** X19.  No handler runs behind a rejection.  For every route mounted
    behind the middleware, a rejected request gets the middleware's own
    response and leaves the daemon and the request trace untouched; an
    accepted request gets exactly what the handler does on the unchanged
    world. *)
Theorem guarded_runs_handler_only_after_next
        {R : Type} (env : Routes.Env) (authorization : option string)
        (handler : M (E := E) R) (w : World E) :
  match fst (auth env authorization w) with
  | Ok Routes.Next =>
      Routes.guarded base64_decode env authorization handler w
      = (match fst (handler w) with
         | Ok x => Ok (inr x)
         | Throw m => Throw m
         end, snd (handler w))
  | Ok (Routes.Reject r) =>
      fst (Routes.guarded base64_decode env authorization handler w) = Ok (inl r)
      /\ backend (snd (Routes.guarded base64_decode env authorization handler w)) = backend w
      /\ requests (snd (Routes.guarded base64_decode env authorization handler w))
         = requests w
  | Throw _ => False
  end.
Proof.
  destruct (auth_leaves_daemon_alone env authorization w) as (outcome & lg & Hrun & Hlog).
  rewrite !guarded_run, Hrun. cbn [fst].
  destruct outcome as [| r].
  - rewrite (Hlog eq_refl). destruct w as [e rq l]. cbn [backend requests logged].
    destruct (handler (mkWorld e rq l)) as [[x | m] w']; reflexivity.
  - cbn. auto.
Qed.

Lemma rejections (env : Routes.Env) (authorization : option string) (w : World E) r :
  fst (auth env authorization w) = Ok (Routes.Reject r) ->
  r = Routes.mkRejection 401 true "Authentication required"
  \/ r = Routes.mkRejection 401 true "Invalid authentication format"
  \/ r = Routes.mkRejection 401 true "Invalid credentials"
  \/ r = Routes.mkRejection 500 false "Storage authentication not configured".
Proof.
  destruct authorization as [h |].
  2:{ rewrite auth_without_basic by exact I. cbn. intros [= <-]. auto. }
  destruct (String.prefix "Basic " h) eqn:Hp.
  2:{ rewrite auth_without_basic by exact Hp. cbn. intros [= <-]. auto. }
  rewrite (auth_with_basic env h w Hp).
  destruct (base64_decode (nth 1 (Js.split " " h) "")) as [credentials | m].
  2:{ cbn. intros [= <-]. auto. }
  destruct (Routes.IPFS_STORAGE_ADMIN_PASSWORD env) as [[| c pw] |].
  1,3: cbn; intros [= <-]; auto.
  match goal with |- context [if ?b then _ else _] => destruct b end; cbn.
  - discriminate.
  - intros [= <-]. auto.
Qed.

Section Dashboard.

Variable btoa : string -> string.

(** X20.  The dashboard's login header and the middleware fit together.
    Provided the runtime's base64 decoding undoes [btoa] on the credentials
    at hand (and the encoding holds no space), a login with a user name and
    a password free of ":" is let through exactly when they are the
    configured user name (or "admin") and the configured password. *)
Theorem login_round_trip (env : Routes.Env) (username password validPassword : string)
        (w : World E) :
  base64_decode (btoa (username ++ ":" ++ password))
  = Ok (username ++ ":" ++ password)%string ->
  Js.includes " " (btoa (username ++ ":" ++ password)) = false ->
  Js.includes ":" username = false ->
  Js.includes ":" password = false ->
  Routes.IPFS_STORAGE_ADMIN_PASSWORD env = Some validPassword ->
  validPassword <> ""%string ->
  (fst (auth env (Some (StorageManager.authorization_header btoa username password)) w)
   = Ok Routes.Next
   <-> username = Js.or_string (Routes.IPFS_STORAGE_ADMIN_USERNAME env) "admin"
       /\ password = validPassword).
Proof.
  intros Hdec Hspace Hu Hp Hpw Hne.
  unfold StorageManager.authorization_header.
  set (b64 := btoa (username ++ ":" ++ password)) in *.
  assert (Hprefix : String.prefix "Basic " ("Basic " ++ b64) = true) by apply prefix_of_app.
  rewrite (auth_with_basic env _ w Hprefix).
  change ("Basic " ++ b64)%string with ("Basic" ++ String " " b64)%string.
  rewrite (split_at_first_separator " " "Basic" b64 eq_refl).
  rewrite (split_without_separator " " b64 Hspace). cbn [nth].
  rewrite Hdec, Hpw.
  change (username ++ ":" ++ password)%string with (username ++ String ":" password)%string.
  rewrite (split_at_first_separator ":" username password Hu).
  rewrite (split_without_separator ":" password Hp). cbn [nth nth_error].
  destruct validPassword as [| c pw]; [congruence |].
  destruct (username =? Js.or_string (Routes.IPFS_STORAGE_ADMIN_USERNAME env) "admin")%string
    eqn:Heu;
    destruct (password =? String c pw)%string eqn:Hep; cbn [andb fst];
    rewrite ?String.eqb_eq, ?String.eqb_neq in *; split; intros H;
    try discriminate; try tauto; try reflexivity; destruct H; congruence.
Qed.

(** X21.  What the dashboard makes of a rejection.  Every response the
    middleware sends itself is either a 401 carrying the Basic challenge,
    on which [fetchAPI] logs the user out and throws "Authentication
    failed", or the 500 for an unconfigured password, on which [fetchAPI]
    keeps the session and throws the server's message; the login form shows
    "Invalid credentials" in both cases. *)
Theorem dashboard_on_rejection
        {D : Type} (env : Routes.Env) (authorization : option string) (w : World E)
        (r : Routes.Rejection) (credentials : option string) (data : D)
        (username password : string) :
  fst (auth env authorization w) = Ok (Routes.Reject r) ->
  ((Routes.rejection_code r = 401 /\ Routes.challenge r = true
    /\ StorageManager.fetchAPI credentials (StorageManager.rejection_response r) data
       = (Throw "Authentication failed", None))
   \/ (Routes.rejection_code r = 500 /\ Routes.challenge r = false
       /\ StorageManager.fetchAPI credentials (StorageManager.rejection_response r) data
          = (Throw "Storage authentication not configured", credentials)))
  /\ StorageManager.handleLogin btoa username password
       (inl (StorageManager.rejection_response r))
     = (None, Some "❌ Invalid credentials").
Proof.
  intros H. apply rejections in H.
  destruct H as [-> | [-> | [-> | ->]]]; (split; [| reflexivity]);
    [left | left | left | right]; repeat split.
Qed.

End Dashboard.

End Middleware.

Lemma auth_next_presupposes_witness :
  exists h validPassword,
    Some "Basic admin:secret" = Some h
    /\ Routes.IPFS_STORAGE_ADMIN_PASSWORD (Routes.mkEnv None (Some "secret")) = Some validPassword
    /\ Js.includes ":" validPassword = false.
Proof.
  destruct (auth_next_presupposes (fun text => Ok text) (Routes.mkEnv None (Some "secret"))
              (Some "Basic admin:secret") (Node.world (Node.sample 40)))
    as (h & validPassword & credentials & H1 & _ & H3 & _ & H5 & _).
  - reflexivity.
  - exists h, validPassword. auto.
Defined.

Lemma auth_unconfigured_password_witness :
  exists r,
    fst (Routes.requireStorageAuth (fun text => Ok text) (Routes.mkEnv (Some "admin") None)
           (Some "Basic admin:secret") (Node.world (Node.sample 40)))
    = Ok (Routes.Reject r).
Proof.
  destruct (auth_unconfigured_password (fun text => Ok text) (Routes.mkEnv (Some "admin") None)
              (Some "Basic admin:secret") (Node.world (Node.sample 40))) as [H _].
  - reflexivity.
  - exact H.
Defined.

Lemma login_round_trip_witness :
  fst (Routes.requireStorageAuth (fun text => Ok text) (Routes.mkEnv None (Some "secret"))
         (Some (StorageManager.authorization_header (fun text => text) "admin" "secret"))
         (Node.world (Node.sample 40)))
  = Ok Routes.Next.
Proof.
  apply (login_round_trip (fun text => Ok text) (fun text => text)
           (Routes.mkEnv None (Some "secret")) "admin" "secret" "secret"
           (Node.world (Node.sample 40))); try reflexivity.
  - discriminate.
  - split; reflexivity.
Defined.

Lemma dashboard_on_rejection_witness :
  StorageManager.handleLogin (fun text => text) "admin" "wrong"
    (inl (StorageManager.rejection_response
            (Routes.mkRejection 401 true "Invalid credentials")))
  = (None, Some "❌ Invalid credentials").
Proof.
  apply (dashboard_on_rejection (D := unit) (fun text => Ok text) (fun text => text)
           (Routes.mkEnv None (Some "secret")) (Some "Basic admin:wrong")
           (Node.world (Node.sample 40))
           (Routes.mkRejection 401 true "Invalid credentials") None tt "admin" "wrong").
  reflexivity.
Defined.

End AuthFacts.

(** ** The dashboard's safe mode *)

Module DashboardFacts.

Import StorageManager.
Local Open Scope list_scope.

Lemma hours_at_least (d n : Z) :
  0 <= n -> (n <=? d / (1000 * 60 * 60)) = (n * 3600000 <=? d).
Proof.
  intros Hn. change (1000 * 60 * 60) with 3600000.
  destruct (Z.leb_spec (n * 3600000) d) as [H | H].
  - apply Z.leb_le. apply Z.div_le_lower_bound; lia.
  - apply Z.leb_gt. apply Z.div_lt_upper_bound; lia.
Qed.

Lemma days_at_least (d n : Z) :
  0 <= n -> (n <=? d / (1000 * 60 * 60) / 24) = (n * 86400000 <=? d).
Proof.
  intros Hn. change (1000 * 60 * 60) with 3600000.
  rewrite Z.div_div by lia. change (3600000 * 24) with 86400000.
  destruct (Z.leb_spec (n * 86400000) d) as [H | H].
  - apply Z.leb_le. apply Z.div_le_lower_bound; lia.
  - apply Z.leb_gt. apply Z.div_lt_upper_bound; lia.
Qed.

(** X22.  The age gate in milliseconds.  A row is styled [age-new] exactly
    when the listed timestamp is less than 24 hours (86 400 000 ms) before
    the browser's clock - in particular whenever it lies in the future -,
    [age-old] exactly from 7 days (604 800 000 ms) on and [age-recent] in
    between; the row's checkbox and button are enabled exactly when it is
    not [age-new]. *)
Theorem age_classes_in_milliseconds (now : Z) (file : Storage.PinEntry.t) :
  let d := now - Storage.PinEntry.timestamp file in
  let row := displayRow now file in
  ageClass row
  = (if d <? 86400000 then "age-new"
     else if d <? 604800000 then "age-recent" else "age-old")
  /\ canUnpin row = negb (ageClass row =? "age-new")%string
  /\ canUnpin row = (86400000 <=? d).
Proof.
  cbv zeta. unfold displayRow, calculateAge.
  cbn [ageClass canUnpin hours days].
  set (d := now - Storage.PinEntry.timestamp file).
  rewrite !Z.ltb_antisym.
  rewrite (hours_at_least d 24), (days_at_least d 7) by lia.
  change (24 * 3600000) with 86400000. change (7 * 86400000) with 604800000.
  destruct (86400000 <=? d), (604800000 <=? d); repeat split.
Qed.

Lemma canUnpin_of_listing (now : Z) (files : list Storage.PinEntry.t) (cid : string) :
  enabled (displayPinnedFiles now files) cid = true ->
  exists file,
    In file files /\ Storage.PinEntry.cid file = cid
    /\ 86400000 <= now - Storage.PinEntry.timestamp file.
Proof.
  unfold enabled, displayPinnedFiles. rewrite existsb_exists.
  intros (row & Hin & Hrow). apply in_map_iff in Hin. destruct Hin as (file & <- & Hfile).
  apply andb_true_iff in Hrow. destruct Hrow as [Hcan Hcid].
  exists file. split; [exact Hfile |]. split.
  - apply String.eqb_eq in Hcid. exact Hcid.
  - destruct (age_classes_in_milliseconds now file) as (_ & _ & Hgate).
    rewrite Hgate in Hcan. now apply Z.leb_le.
Qed.

Lemma Set_add_keeps (P : string -> Prop) (x : string) (s : list string) :
  P x -> Forall P s -> Forall P (Set_add x s).
Proof.
  intros Hx Hs. unfold Set_add. destruct (Set_has x s); [exact Hs |].
  apply Forall_app. split; [exact Hs | now constructor].
Qed.

Lemma Set_delete_keeps (P : string -> Prop) (x : string) (s : list string) :
  Forall P s -> Forall P (Set_delete x s).
Proof.
  intros Hs. unfold Set_delete. rewrite Forall_forall in *.
  intros y Hy. apply filter_In in Hy. now apply Hs.
Qed.

Lemma Set_add_NoDup (x : string) (s : list string) : NoDup s -> NoDup (Set_add x s).
Proof.
  intros Hs. unfold Set_add, Set_has. destruct (existsb (String.eqb x) s) eqn:Hx; [exact Hs |].
  apply NoDup_app; [exact Hs | repeat constructor; intros [] |].
  intros y Hy [Hxy | []]. subst y.
  assert (existsb (String.eqb x) s = true)
    by (apply existsb_exists; exists x; split; [exact Hy | apply String.eqb_refl]).
  congruence.
Qed.

Lemma Set_delete_NoDup (x : string) (s : list string) : NoDup s -> NoDup (Set_delete x s).
Proof. intros Hs. now apply NoDup_filter. Qed.

Lemma ui_step_keeps (rows : list Row) (P : string -> Prop) :
  (forall cid, enabled rows cid = true -> P cid) ->
  forall ev selected,
    Forall P selected /\ NoDup selected ->
    Forall P (ui_step rows selected ev) /\ NoDup (ui_step rows selected ev).
Proof.
  intros HP [cid checked | checked] selected [HF HN]; cbn [ui_step].
  - unfold onCheckboxChange. destruct (enabled rows cid) eqn:He; [| auto].
    destruct checked.
    + split; [apply Set_add_keeps; auto | now apply Set_add_NoDup].
    + split; [now apply Set_delete_keeps | now apply Set_delete_NoDup].
  - unfold handleSelectAllOn.
    assert (Hrows : Forall (fun r => P (row_cid r)) (filter canUnpin rows)).
    { apply Forall_forall. intros r Hr. apply filter_In in Hr. destruct Hr as [Hin Hcan].
      apply HP. unfold enabled. apply existsb_exists. exists r.
      split; [exact Hin |]. now rewrite Hcan, String.eqb_refl. }
    revert selected HF HN.
    induction Hrows as [| r rs Hr _ IH]; intros selected HF HN; cbn [fold_left]; [auto |].
    apply IH; destruct checked;
      auto using Set_add_keeps, Set_delete_keeps, Set_add_NoDup, Set_delete_NoDup.
Qed.

(** X23.  Safe mode holds for everything the table lets the user select.
    Starting from an empty selection, after any sequence of checkbox and
    "select all" events on the rendered table, every selected cid belongs
    to a listed file whose timestamp is at least 24 hours old, no cid is
    selected twice, and what "unpin selected" then sends is exactly that
    selection with [force] left out (nothing at all for an empty
    selection). *)
Theorem selection_respects_safe_mode
        (now : Z) (files : list Storage.PinEntry.t) (events : list UiEvent) :
  let selected := fold_left (ui_step (displayPinnedFiles now files)) events [] in
  Forall (fun cid =>
            exists file,
              In file files /\ Storage.PinEntry.cid file = cid
              /\ 86400000 <= now - Storage.PinEntry.timestamp file) selected
  /\ NoDup selected
  /\ unpinSelected selected
     = match selected with
       | [] => None
       | _ => Some (Routes.mkUnpinBody (Some selected) None)
       end.
Proof.
  cbv zeta.
  assert (H : forall selected,
             Forall (fun cid =>
                       exists file,
                         In file files /\ Storage.PinEntry.cid file = cid
                         /\ 86400000 <= now - Storage.PinEntry.timestamp file) selected
             /\ NoDup selected ->
             Forall (fun cid =>
                       exists file,
                         In file files /\ Storage.PinEntry.cid file = cid
                         /\ 86400000 <= now - Storage.PinEntry.timestamp file)
                    (fold_left (ui_step (displayPinnedFiles now files)) events selected)
             /\ NoDup (fold_left (ui_step (displayPinnedFiles now files)) events selected)).
  { induction events as [| ev evs IH]; intros selected Hsel; cbn [fold_left]; [exact Hsel |].
    apply IH. apply ui_step_keeps; [apply canUnpin_of_listing | exact Hsel]. }
  destruct (H [] (conj (Forall_nil _) (NoDup_nil _))) as [HF HN].
  split; [exact HF |]. split; [exact HN |].
  destruct (fold_left (ui_step (displayPinnedFiles now files)) events []); reflexivity.
Qed.

(** X24.  "Select all" and then "deselect all" leaves nothing selected that
    the table can unpin: the cids of enabled rows are all gone from the
    selection, whatever it held before. *)
Theorem select_all_then_none (rows : list Row) (selected : list string) (cid : string) :
  enabled rows cid = true ->
  Set_has cid (handleSelectAllOn false rows (handleSelectAllOn true rows selected)) = false.
Proof.
  intros He. unfold enabled in He. apply existsb_exists in He.
  destruct He as (r & Hin & Hr). apply andb_true_iff in Hr. destruct Hr as [Hcan Hcid].
  apply String.eqb_eq in Hcid. subst cid.
  assert (Hr : In r (filter canUnpin rows)) by (apply filter_In; auto).
  unfold handleSelectAllOn.
  generalize (fold_left (fun sel r0 => Set_add (row_cid r0) sel) (filter canUnpin rows) selected).
  revert Hr. generalize (filter canUnpin rows). clear.
  intros l Hr sel.
  assert (Hdel : forall l sel,
             In r l \/ Set_has (row_cid r) sel = false ->
             Set_has (row_cid r)
                     (fold_left (fun sel r0 => Set_delete (row_cid r0) sel) l sel) = false).
  { clear. induction l as [| r0 l IH]; intros sel H; cbn [fold_left].
    - destruct H as [[] | H]. exact H.
    - apply IH. destruct H as [[-> | Hin] | Hno]; [right | left; exact Hin | right].
      + unfold Set_has, Set_delete. apply not_true_is_false. intros H.
        apply existsb_exists in H. destruct H as (y & Hy & Heq).
        apply filter_In in Hy. destruct Hy as [_ Hy].
        apply String.eqb_eq in Heq. subst y. rewrite String.eqb_refl in Hy. discriminate.
      + unfold Set_has, Set_delete in *. apply not_true_is_false. intros H.
        apply existsb_exists in H. destruct H as (y & Hy & Heq).
        apply filter_In in Hy. destruct Hy as [Hy _].
        assert (existsb (String.eqb (row_cid r)) sel = true)
          by (apply existsb_exists; eauto).
        congruence. }
  apply Hdel. now left.
Qed.

Lemma select_all_then_none_witness :
  Set_has "QmVideoA"
          (handleSelectAllOn false
             (displayPinnedFiles 1700090000000
                [Storage.PinEntry.mk "QmVideoA" "recursive" 4096 1700000000010])
             (handleSelectAllOn true
                (displayPinnedFiles 1700090000000
                   [Storage.PinEntry.mk "QmVideoA" "recursive" 4096 1700000000010])
                ["QmVideoA"; "QmOther"]))
  = false.
Proof.
  apply (select_all_then_none
           (displayPinnedFiles 1700090000000
              [Storage.PinEntry.mk "QmVideoA" "recursive" 4096 1700000000010])
           ["QmVideoA"; "QmOther"] "QmVideoA").
  reflexivity.
Defined.

End DashboardFacts.

(** ** The index set-up *)

Module SetupFacts.

Import TempUploads.
Local Open Scope list_scope.

(** X25.  The set-up script is idempotent on the index set: after one run
    the collection's indexes are the previous [_id_] index(es) followed by
    the five created ones - every other previous index is dropped, and
    [expires_ttl] is the only created index with a TTL - and a second run
    changes nothing. *)
Theorem setupTempUploadsCollection_idempotent (existingIndexes : list IndexSpec) :
  setupTempUploadsCollection (setupTempUploadsCollection existingIndexes)
  = setupTempUploadsCollection existingIndexes
  /\ filter (fun index => negb (name index =? "_id_")%string)
            (setupTempUploadsCollection existingIndexes)
     = [upload_id_unique; owner_created; tus_finalized_status; video_id_index; expires_ttl]
  /\ map name (filter (fun index => match expireAfterSeconds index with
                                    | Some _ => true
                                    | None => false
                                    end)
                      (filter (fun index => negb (name index =? "_id_")%string)
                              (setupTempUploadsCollection existingIndexes)))
     = ["expires_ttl"].
Proof.
  unfold setupTempUploadsCollection.
  assert (Hkeep : forall l,
             filter (fun index => (name index =? "_id_")%string)
                    (filter (fun index => (name index =? "_id_")%string) l)
             = filter (fun index => (name index =? "_id_")%string) l).
  { induction l as [| i l IH]; cbn; [reflexivity |].
    destruct (name i =? "_id_")%string eqn:Hi; cbn; rewrite ?Hi, IH; reflexivity. }
  assert (Hdrop : forall l,
             filter (fun index => negb (name index =? "_id_")%string)
                    (filter (fun index => (name index =? "_id_")%string) l) = []).
  { induction l as [| i l IH]; cbn; [reflexivity |].
    destruct (name i =? "_id_")%string eqn:Hi; cbn; rewrite ?Hi; cbn; exact IH. }
  rewrite !filter_app, Hkeep, Hdrop. cbn. rewrite app_nil_r. auto.
Qed.

End SetupFacts.

(** ** The composition facts on the concrete node *)

Module ServiceWitnesses.

Import Storage.

Lemma listPinnedFiles_requests_and_log_witness :
  requests (snd (listPinnedFiles (Node.world (Node.sample 40))))
  = [PinLs; ObjectStat "QmVideoA"; ObjectStat "QmVideoB"]
  /\ logged (snd (listPinnedFiles (Node.world (Node.sample 40)))) = [].
Proof.
  apply (ServiceFacts.listPinnedFiles_requests_and_log
           (Node.world (Node.sample 40))
           (Some [("QmVideoA", Node.recursive); ("QmVideoB", Node.recursive)])
           (Node.tick (Node.sample 40))).
  reflexivity.
Defined.

End ServiceWitnesses.
